(** * react-simple-socket: the [useSocket] hook

    A shallow embedding of [src/service/useSocket.ts] and of the types of
    [src/service/types.ts].  The hook's React state cells ([useState]) and
    refs ([useRef]) become the fields of one record, every socket handler and
    every public operation becomes a function on that record, and the socket
    object the hook holds in [socketRef] is modelled by the part of it the
    hook reads and writes.  Socket objects live in a store and are referred
    to by their position in it, so that a closure that captured one socket
    and [socketRef], which may by then hold another, stay apart.

    Conventions.
    - A JS [number] that the hook computes with (delays, attempt numbers,
      millisecond timestamps) is an integer [Z].
    - An application state ([TState], [Partial<TState>]) is a JS object, a
      finite map from property names to values; [{...prev, ...update}] is the
      union that prefers [update].
    - [Date.now()], [new Date()] and [Math.random()] are read from an
      environment record passed to each handler.
    - [log] only writes to the console and is left out. *)

From Stdlib Require Import ZArith String Ascii List Bool Lia.
From stdpp Require Import base option list gmap strings pretty.
Import ListNotations.

Local Open Scope string_scope.
Local Open Scope list_scope.
Local Open Scope Z_scope.

(** ** Data model ([types.ts]) *)

(** Property values of an application state object. *)
Inductive JsVal : Type :=
| VNull
| VBool (b : bool)
| VNum (n : Z)
| VStr (s : string).

(** [TState] and [Partial<TState>]: objects keyed by property name. *)
Abbreviation State := (gmap string JsVal).

Inductive SocketErrorType : Type :=
| type_connection
| type_timeout
| type_authentication
| type_authorization
| type_validation
| type_server
| type_network
| type_unknown.

(** The [details] objects the hook builds, one constructor per shape. *)
Inductive ErrorDetails : Type :=
| DetDisconnect (reason : string) (details : option string)
| DetOriginalError (message : string)
| DetMaxAttempts (maxAttempts : Z)
| DetState (state : State)
| DetPartial (update previousState : State)
| DetUpdate (update : State)
| DetUpdateFailed (update : State)
| DetNewState (newState : State)
| DetNewStateFailed (newState : State)
| DetRecord (fields : State).

Record SocketErrorPayload : Type := {
  p_type : SocketErrorType;
  p_message : string;
  p_code : option JsVal;
  p_details : option ErrorDetails
}.

Record SocketError : Type := {
  e_type : SocketErrorType;
  e_message : string;
  e_code : option JsVal;
  e_details : option ErrorDetails;
  e_timestamp : Z;
  e_id : string
}.

Record ReconnectionInfo : Type := {
  attempt : Z;
  maxAttempts : Z;
  nextRetryIn : Z;
  isReconnecting : bool;
  lastFailureReason : option string
}.

Record SocketConnectionState : Type := {
  isConnected : bool;
  isConnecting : bool;
  connectionId : option string;
  connectedAt : option Z;
  lastDisconnectedAt : option Z;
  disconnectReason : option string
}.

(** [UseSocketOptions] after the destructuring with defaults at the top of
    [useSocket], together with the two positional arguments. *)
Record Options : Type := {
  socketUrl : string;
  userId : string;
  reconnectionAttempts : Z;
  reconnectionDelay : Z;
  reconnectionDelayMax : Z;
  namespace : option string;
  room : option string;
  autoConnect : bool;
  stateValidator : option (State -> bool)
}.

Definition defaultOptions (url user : string) : Options :=
  {| socketUrl := url; userId := user;
     reconnectionAttempts := 5;
     reconnectionDelay := 1000;
     reconnectionDelayMax := 5000;
     namespace := None;
     room := None;
     autoConnect := true;
     stateValidator := None |}.

(** What the hook reads from the outside world. *)
Record Env : Type := {
  now : Z;            (* Date.now() / new Date() *)
  rand : string;      (* Math.random().toString(36).substr(2, 9) *)
  emitThrows : bool   (* whether a call of socket.emit throws *)
}.

(** ** The socket object

    Messages the hook sends with [socket.emit]. *)
Inductive ClientMsg : Type :=
| JoinRoom (roomId : string)
| UpdateState (update : State)
| ReplaceState (state : State)
| Custom (event : string) (args : list JsVal).

(** A listener function, identified by a number. *)
Abbreviation Listener := nat.

Record Socket : Type := {
  sock_id : option string;               (* socket.id *)
  connected : bool;                      (* socket.connected *)
  sent : list ClientMsg;                 (* every socket.emit, oldest first *)
  hooked : bool;                         (* the effect's own handlers are registered *)
  listeners : list (string * Listener);  (* socket.on registrations made through [on] *)
  connectCalls : nat                     (* number of socket.connect() calls *)
}.

(** The socket returned by [io(...)]. *)
Definition io : Socket :=
  {| sock_id := None; connected := false;
     sent := []; hooked := false; listeners := []; connectCalls := 0 |}.

Definition sock_emit (m : ClientMsg) (s : Socket) : Socket :=
  {| sock_id := sock_id s; connected := connected s;
     sent := sent s ++ [m]; hooked := hooked s; listeners := listeners s;
     connectCalls := connectCalls s |}.

Definition sock_set_connected (b : bool) (id : option string) (s : Socket) : Socket :=
  {| sock_id := id; connected := b;
     sent := sent s; hooked := hooked s; listeners := listeners s;
     connectCalls := connectCalls s |}.

Definition sock_set_hooked (b : bool) (s : Socket) : Socket :=
  {| sock_id := sock_id s; connected := connected s;
     sent := sent s; hooked := b; listeners := listeners s;
     connectCalls := connectCalls s |}.

Definition sock_on (event : string) (l : Listener) (s : Socket) : Socket :=
  {| sock_id := sock_id s; connected := connected s;
     sent := sent s; hooked := hooked s; listeners := listeners s ++ [(event, l)];
     connectCalls := connectCalls s |}.

(** [socket.off(event, listener)] removes one registration of that listener. *)
Fixpoint remove_first (event : string) (l : Listener) (ls : list (string * Listener))
  : list (string * Listener) :=
  match ls with
  | [] => []
  | (e, l') :: rest =>
      if decide (e = event /\ l' = l) then rest
      else (e, l') :: remove_first event l rest
  end.

Definition sock_off (event : string) (l : Listener) (s : Socket) : Socket :=
  {| sock_id := sock_id s; connected := connected s;
     sent := sent s; hooked := hooked s;
     listeners := remove_first event l (listeners s);
     connectCalls := connectCalls s |}.

Definition sock_connect (s : Socket) : Socket :=
  {| sock_id := sock_id s; connected := connected s;
     sent := sent s; hooked := hooked s; listeners := listeners s;
     connectCalls := S (connectCalls s) |}.

(** A reference to a socket object: its position in the store. *)
Abbreviation SocketRef := nat.

(** ** The hook's cells, and the sockets it has created *)

Record Hook : Type := {
  state : option State;                              (* useState<TState | null>(null) *)
  connection : SocketConnectionState;
  error : option SocketError;
  reconnectionInfo : ReconnectionInfo;
  socketRef : option SocketRef;
  reconnectionTimerRef : option Z;                   (* the live interval and its [timeLeft] *)
  eventListenersRef : gmap string (string * Listener);
  sockets : list Socket;                             (* every socket made by [io], in order *)
  raised : list SocketError                          (* every [handleError], oldest first *)
}.

Definition set_state (v : option State) (h : Hook) : Hook :=
  {| state := v; connection := connection h; error := error h;
     reconnectionInfo := reconnectionInfo h; socketRef := socketRef h;
     reconnectionTimerRef := reconnectionTimerRef h;
     eventListenersRef := eventListenersRef h;
     sockets := sockets h; raised := raised h |}.

Definition set_connection (c : SocketConnectionState) (h : Hook) : Hook :=
  {| state := state h; connection := c; error := error h;
     reconnectionInfo := reconnectionInfo h; socketRef := socketRef h;
     reconnectionTimerRef := reconnectionTimerRef h;
     eventListenersRef := eventListenersRef h;
     sockets := sockets h; raised := raised h |}.

Definition set_error (e : option SocketError) (h : Hook) : Hook :=
  {| state := state h; connection := connection h; error := e;
     reconnectionInfo := reconnectionInfo h; socketRef := socketRef h;
     reconnectionTimerRef := reconnectionTimerRef h;
     eventListenersRef := eventListenersRef h;
     sockets := sockets h; raised := raised h |}.

Definition set_reconnectionInfo (r : ReconnectionInfo) (h : Hook) : Hook :=
  {| state := state h; connection := connection h; error := error h;
     reconnectionInfo := r; socketRef := socketRef h;
     reconnectionTimerRef := reconnectionTimerRef h;
     eventListenersRef := eventListenersRef h;
     sockets := sockets h; raised := raised h |}.

Definition set_socketRef (s : option SocketRef) (h : Hook) : Hook :=
  {| state := state h; connection := connection h; error := error h;
     reconnectionInfo := reconnectionInfo h; socketRef := s;
     reconnectionTimerRef := reconnectionTimerRef h;
     eventListenersRef := eventListenersRef h;
     sockets := sockets h; raised := raised h |}.

Definition set_timer (t : option Z) (h : Hook) : Hook :=
  {| state := state h; connection := connection h; error := error h;
     reconnectionInfo := reconnectionInfo h; socketRef := socketRef h;
     reconnectionTimerRef := t;
     eventListenersRef := eventListenersRef h;
     sockets := sockets h; raised := raised h |}.

Definition set_eventListeners (m : gmap string (string * Listener)) (h : Hook) : Hook :=
  {| state := state h; connection := connection h; error := error h;
     reconnectionInfo := reconnectionInfo h; socketRef := socketRef h;
     reconnectionTimerRef := reconnectionTimerRef h;
     eventListenersRef := m;
     sockets := sockets h; raised := raised h |}.

Definition set_sockets (l : list Socket) (h : Hook) : Hook :=
  {| state := state h; connection := connection h; error := error h;
     reconnectionInfo := reconnectionInfo h; socketRef := socketRef h;
     reconnectionTimerRef := reconnectionTimerRef h;
     eventListenersRef := eventListenersRef h;
     sockets := l; raised := raised h |}.

Definition push_raised (e : SocketError) (h : Hook) : Hook :=
  {| state := state h; connection := connection h; error := error h;
     reconnectionInfo := reconnectionInfo h; socketRef := socketRef h;
     reconnectionTimerRef := reconnectionTimerRef h;
     eventListenersRef := eventListenersRef h;
     sockets := sockets h; raised := raised h ++ [e] |}.

(** Apply a socket method to the object behind a reference. *)
Definition with_socket (a : SocketRef) (f : Socket -> Socket) (h : Hook) : Hook :=
  set_sockets (alter f a (sockets h)) h.

(** The cells as [useState] and [useRef] initialise them. *)
Definition initialHook (o : Options) : Hook :=
  {| state := None;
     connection := {| isConnected := false; isConnecting := false;
                      connectionId := None; connectedAt := None;
                      lastDisconnectedAt := None; disconnectReason := None |};
     error := None;
     reconnectionInfo := {| attempt := 0; maxAttempts := reconnectionAttempts o;
                            nextRetryIn := 0; isReconnecting := false;
                            lastFailureReason := None |};
     socketRef := None;
     reconnectionTimerRef := None;
     eventListenersRef := ∅;
     sockets := [];
     raised := [] |}.

(** ** Error channel *)

Definition generateErrorId (env : Env) : string :=
  "error_" +:+ pretty (now env) +:+ "_" +:+ rand env.

Definition createSocketError (env : Env) (p : SocketErrorPayload) : SocketError :=
  {| e_type := p_type p; e_message := p_message p; e_code := p_code p;
     e_details := p_details p;
     e_timestamp := now env;
     e_id := generateErrorId env |}.

Definition handleError (env : Env) (p : SocketErrorPayload) (h : Hook) : Hook :=
  let socketError := createSocketError env p in
  push_raised socketError (set_error (Some socketError) h).

Definition clearError (h : Hook) : Hook := set_error None h.

Definition clearReconnectionTimer (h : Hook) : Hook :=
  match reconnectionTimerRef h with
  | Some _ => set_timer None h
  | None => h
  end.

(** ** Strings

    [hay.includes(needle)]: [needle] occurs in [hay] as a contiguous run of
    characters. *)
Fixpoint includes (hay needle : string) : bool :=
  String.prefix needle hay
  || match hay with
     | EmptyString => false
     | String _ rest => includes rest needle
     end.

(** ** Socket handlers registered by the effect *)

Section Handlers.

Variable opts : Options.
Variable env : Env.

(** [stateValidator && !stateValidator(s)] *)
Definition rejects (s : State) : bool :=
  match stateValidator opts with
  | Some validate => negb (validate s)
  | None => false
  end.

(** [{ ...prev, ...update }] *)
Definition merge (prev update : State) : State := update ∪ prev.

(** [socket.emit(...)]: [None] when the call throws. *)
Definition try_emit (socket : SocketRef) (m : ClientMsg) (h : Hook) : option Hook :=
  match sockets h !! socket with
  | Some _ =>
      if emitThrows env then None
      else Some (with_socket socket (sock_emit m) h)
  | None => None
  end.

(** [socket.id || undefined] *)
Definition id_or_undefined (id : option string) : option string :=
  match id with
  | Some EmptyString => None
  | other => other
  end.

(** The handlers close over [socket], the object the effect created. *)
Definition on_connect (socket : SocketRef) (h : Hook) : Hook :=
  let id := match sockets h !! socket with
            | Some s => id_or_undefined (sock_id s)
            | None => None
            end in
  let h := set_connection
             {| isConnected := true; isConnecting := false;
                connectionId := id; connectedAt := Some (now env);
                lastDisconnectedAt := None; disconnectReason := None |} h in
  let h := set_error None h in
  let prev := reconnectionInfo h in
  let h := set_reconnectionInfo
             {| attempt := 0; maxAttempts := maxAttempts prev;
                nextRetryIn := 0; isReconnecting := false;
                lastFailureReason := lastFailureReason prev |} h in
  let h := clearReconnectionTimer h in
  match room opts with
  | Some r =>
      if decide (r = EmptyString) then h
      else match try_emit socket (JoinRoom r) h with
           | Some h' => h'
           | None => h      (* the exception leaves the handler *)
           end
  | None => h
  end.

Definition on_disconnect (reason : string) (details : option string) (h : Hook) : Hook :=
  let prev := connection h in
  let h := set_connection
             {| isConnected := false; isConnecting := false;
                connectionId := connectionId prev; connectedAt := connectedAt prev;
                lastDisconnectedAt := Some (now env);
                disconnectReason := Some reason |} h in
  if decide (reason = "io server disconnect") then
    handleError env
      {| p_type := type_connection;
         p_message := "Server forcibly disconnected the socket";
         p_code := None;
         p_details := Some (DetDisconnect reason details) |} h
  else h.

(** The classification of a connect failure: three independent tests, each
    of which overwrites [errorType]. *)
Definition connectErrorType (message : string) : SocketErrorType :=
  let errorType := type_connection in
  let errorType := if includes message "timeout" then type_timeout else errorType in
  let errorType := if includes message "auth" then type_authentication else errorType in
  let errorType := if includes message "unauthorized" then type_authorization else errorType in
  errorType.

Definition on_connect_error (message : string) (h : Hook) : Hook :=
  let prev := connection h in
  let h := set_connection
             {| isConnected := isConnected prev; isConnecting := false;
                connectionId := connectionId prev; connectedAt := connectedAt prev;
                lastDisconnectedAt := lastDisconnectedAt prev;
                disconnectReason := disconnectReason prev |} h in
  handleError env
    {| p_type := connectErrorType message;
       p_message := message;
       p_code := None;
       p_details := Some (DetOriginalError message) |} h.

(** [Math.min(reconnectionDelay * Math.pow(2, attemptNumber - 1),
    reconnectionDelayMax)], for the attempt numbers 1, 2, ... that the
    manager reports. *)
Definition retryDelay (attemptNumber : Z) : Z :=
  Z.min (reconnectionDelay opts * 2 ^ (attemptNumber - 1)) (reconnectionDelayMax opts).

Definition on_reconnect_attempt (attemptNumber : Z) (h : Hook) : Hook :=
  let prev := reconnectionInfo h in
  let h := set_reconnectionInfo
             {| attempt := attemptNumber; maxAttempts := reconnectionAttempts opts;
                nextRetryIn := nextRetryIn prev; isReconnecting := true;
                lastFailureReason := lastFailureReason prev |} h in
  let h := clearReconnectionTimer h in
  let delay := retryDelay attemptNumber in
  let timeLeft := delay in
  set_timer (Some timeLeft) h.

(** One firing of the interval started by [on_reconnect_attempt]. *)
Definition on_interval (h : Hook) : Hook :=
  match reconnectionTimerRef h with
  | None => h
  | Some timeLeft =>
      let timeLeft := Z.max 0 (timeLeft - 1000) in
      let h := set_timer (Some timeLeft) h in
      let prev := reconnectionInfo h in
      let h := set_reconnectionInfo
                 {| attempt := attempt prev; maxAttempts := maxAttempts prev;
                    nextRetryIn := timeLeft; isReconnecting := isReconnecting prev;
                    lastFailureReason := lastFailureReason prev |} h in
      if timeLeft <=? 0 then clearReconnectionTimer h else h
  end.

Definition on_reconnect_failed (h : Hook) : Hook :=
  let h := clearReconnectionTimer h in
  let prev := reconnectionInfo h in
  let h := set_reconnectionInfo
             {| attempt := attempt prev; maxAttempts := maxAttempts prev;
                nextRetryIn := 0; isReconnecting := false;
                lastFailureReason := lastFailureReason prev |} h in
  handleError env
    {| p_type := type_connection;
       p_message := "Failed to reconnect after "
                    +:+ pretty (reconnectionAttempts opts) +:+ " attempts";
       p_code := None;
       p_details := Some (DetMaxAttempts (reconnectionAttempts opts)) |} h.

Definition on_stateUpdate (newState : State) (h : Hook) : Hook :=
  if rejects newState then
    handleError env
      {| p_type := type_validation;
         p_message := "Received state failed validation";
         p_code := None;
         p_details := Some (DetState newState) |} h
  else set_state (Some newState) h.

Definition on_statePartialUpdate (update : State) (h : Hook) : Hook :=
  match state h with
  | None => h
  | Some prev =>
      let newState := merge prev update in
      if rejects newState then
        handleError env
          {| p_type := type_validation;
             p_message := "Updated state failed validation";
             p_code := None;
             p_details := Some (DetPartial update prev) |} h
      else set_state (Some newState) h
  end.

Definition on_error (errorPayload : SocketErrorPayload) (h : Hook) : Hook :=
  handleError env errorPayload h.

(** ** Public operations *)

(** [socket?.connected] for [socket = socketRef.current] *)
Definition socket_connected (h : Hook) : bool :=
  match socketRef h with
  | Some socket =>
      match sockets h !! socket with
      | Some s => connected s
      | None => false
      end
  | None => false
  end.

(** [socket.emit(...)] on [socketRef.current], inside a [try] block. *)
Definition try_emit_current (m : ClientMsg) (h : Hook) : option Hook :=
  match socketRef h with
  | Some socket => try_emit socket m h
  | None => None
  end.

Definition updateState (update : State) (h : Hook) : bool * Hook :=
  if negb (socket_connected h) then
    (false, handleError env
              {| p_type := type_connection;
                 p_message := "Cannot update state: socket not connected";
                 p_code := None;
                 p_details := Some (DetUpdate update) |} h)
  else
    match try_emit_current (UpdateState update) h with
    | Some h' => (true, h')
    | None =>
        (false, handleError env
                  {| p_type := type_unknown;
                     p_message := "Failed to send state update";
                     p_code := None;
                     p_details := Some (DetUpdateFailed update) |} h)
    end.

Definition replaceState (newState : State) (h : Hook) : bool * Hook :=
  if negb (socket_connected h) then
    (false, handleError env
              {| p_type := type_connection;
                 p_message := "Cannot replace state: socket not connected";
                 p_code := None;
                 p_details := Some (DetNewState newState) |} h)
  else if rejects newState then
    (false, handleError env
              {| p_type := type_validation;
                 p_message := "New state failed validation";
                 p_code := None;
                 p_details := Some (DetNewState newState) |} h)
  else
    match try_emit_current (ReplaceState newState) h with
    | Some h' => (true, h')
    | None =>
        (false, handleError env
                  {| p_type := type_unknown;
                     p_message := "Failed to send state replacement";
                     p_code := None;
                     p_details := Some (DetNewStateFailed newState) |} h)
    end.

Definition reconnect (h : Hook) : Hook :=
  match socketRef h with
  | Some socket => with_socket socket sock_connect h
  | None => h
  end.

(** [socket.disconnect()] of the client library: the socket closes and, if
    it was connected, its [disconnect] listeners run with the reason
    ["io client disconnect"]. *)
Definition socket_disconnect (socket : SocketRef) (h : Hook) : Hook :=
  match sockets h !! socket with
  | Some s =>
      let h' := with_socket socket (sock_set_connected false None) h in
      if connected s && hooked s
      then on_disconnect "io client disconnect" None h'
      else h'
  | None => h
  end.

Definition disconnect (h : Hook) : Hook :=
  if socket_connected h then
    match socketRef h with
    | Some socket => socket_disconnect socket h
    | None => h
    end
  else h.

Definition emit (event : string) (args : list JsVal) (h : Hook) : Hook :=
  if socket_connected h then
    match try_emit_current (Custom event args) h with
    | Some h' => h'
    | None => h     (* the exception leaves [emit] *)
    end
  else h.

(** The closure [on] returns. *)
Inductive Unsubscribe : Type :=
| UnsubNothing                                        (* [() => {}] *)
| UnsubListener (socket : SocketRef) (event : string) (listener : Listener) (key : string).

Definition on (event : string) (listener : Listener) (h : Hook) : Unsubscribe * Hook :=
  match socketRef h with
  | Some socket =>
      let h := with_socket socket (sock_on event listener) h in
      let key := event +:+ "_" +:+ pretty (now env) in
      let h := set_eventListeners (<[key := (event, listener)]> (eventListenersRef h)) h in
      (UnsubListener socket event listener key, h)
  | None => (UnsubNothing, h)
  end.

Definition unsubscribe (u : Unsubscribe) (h : Hook) : Hook :=
  match u with
  | UnsubNothing => h
  | UnsubListener socket event listener key =>
      let h := with_socket socket (sock_off event listener) h in
      set_eventListeners (delete key (eventListenersRef h)) h
  end.

(** ** The effect and its cleanup *)

(** The body of [useEffect]; the result says which socket the returned
    cleanup closes, if a cleanup is returned. *)
Definition effect (h : Hook) : option SocketRef * Hook :=
  if negb (autoConnect opts) then (None, h)
  else
    let socket := length (sockets h) in
    let h := set_sockets (sockets h ++ [io]) h in
    let h := set_socketRef (Some socket) h in
    let prev := connection h in
    let h := set_connection
               {| isConnected := isConnected prev; isConnecting := true;
                  connectionId := connectionId prev; connectedAt := connectedAt prev;
                  lastDisconnectedAt := lastDisconnectedAt prev;
                  disconnectReason := disconnectReason prev |} h in
    let h := with_socket socket (sock_set_hooked true) h in
    (Some socket, h).

Definition cleanup (socket : SocketRef) (h : Hook) : Hook :=
  let h := clearReconnectionTimer h in
  let h := set_eventListeners ∅ h in
  let h := with_socket socket (sock_set_hooked false) h in
  socket_disconnect socket h.

End Handlers.

(** ** The mounted component

    The hook's cells together with what the closures of the last render and
    of the last effect run captured.  Socket handlers are the closures of the
    effect run ([effect_opts]); the public operations are those of the last
    render ([render_opts]). *)

Record Component : Type := {
  render_opts : Options;
  effect_opts : Options;
  pending_cleanup : option SocketRef;
  hook : Hook
}.

(** [namespace ? `${socketUrl}/${namespace}` : socketUrl] *)
Definition socketUrl_with_namespace (o : Options) : string :=
  match namespace o with
  | Some ns => if decide (ns = EmptyString) then socketUrl o
               else socketUrl o +:+ "/" +:+ ns
  | None => socketUrl o
  end.

(** The dependency list of the effect. *)
Definition deps (o : Options) : string * string * bool * Z * Z * Z * option string :=
  (socketUrl_with_namespace o, userId o, autoConnect o,
   reconnectionAttempts o, reconnectionDelayMax o, reconnectionDelay o, room o).

Definition mount (o : Options) : Component :=
  let '(c, h) := effect o (initialHook o) in
  {| render_opts := o; effect_opts := o; pending_cleanup := c; hook := h |}.

Definition with_hook (f : Hook -> Hook) (w : Component) : Component :=
  {| render_opts := render_opts w; effect_opts := effect_opts w;
     pending_cleanup := pending_cleanup w; hook := f (hook w) |}.

(** A render with new arguments: when a dependency changed, the previous
    cleanup runs and then the effect runs again. *)
Definition rerender (env : Env) (o : Options) (w : Component) : Component :=
  if decide (deps o = deps (render_opts w)) then
    {| render_opts := o; effect_opts := effect_opts w;
       pending_cleanup := pending_cleanup w; hook := hook w |}
  else
    let h := match pending_cleanup w with
             | Some socket => cleanup env socket (hook w)
             | None => hook w
             end in
    let '(c, h) := effect o h in
    {| render_opts := o; effect_opts := o; pending_cleanup := c; hook := h |}.

Definition unmount (env : Env) (w : Component) : Component :=
  match pending_cleanup w with
  | Some socket =>
      {| render_opts := render_opts w; effect_opts := effect_opts w;
         pending_cleanup := None; hook := cleanup env socket (hook w) |}
  | None => w
  end.

(** What can happen to a mounted component. *)
Inductive Event : Type :=
| Rerender (o : Options)
| SockConnect (socket : SocketRef) (id : option string)
| SockDisconnect (socket : SocketRef) (reason : string) (details : option string)
| SockConnectError (socket : SocketRef) (message : string)
| SockReconnectAttempt (socket : SocketRef) (attemptNumber : Z)
| SockReconnectFailed (socket : SocketRef)
| SockStateUpdate (socket : SocketRef) (newState : State)
| SockStatePartialUpdate (socket : SocketRef) (update : State)
| SockError (socket : SocketRef) (errorPayload : SocketErrorPayload)
| IntervalFires
| CallUpdateState (update : State)
| CallReplaceState (newState : State)
| CallClearError
| CallReconnect
| CallDisconnect
| CallEmit (event : string) (args : list JsVal)
| CallOn (event : string) (listener : Listener)
| CallUnsubscribe (u : Unsubscribe).

(** A socket event reaches the hook's handler while the effect's handlers are
    registered on that socket. *)
Definition deliver (socket : SocketRef) (f : Hook -> Hook) (h : Hook) : Hook :=
  match sockets h !! socket with
  | Some s => if hooked s then f h else h
  | None => h
  end.

Definition step (env : Env) (ev : Event) (w : Component) : Component :=
  let eo := effect_opts w in
  let ro := render_opts w in
  match ev with
  | Rerender o => rerender env o w
  | SockConnect socket id =>
      with_hook (fun h =>
        deliver socket (on_connect eo env socket)
          (with_socket socket (sock_set_connected true id) h)) w
  | SockDisconnect socket reason details =>
      with_hook (fun h =>
        deliver socket (on_disconnect env reason details)
          (with_socket socket (sock_set_connected false None) h)) w
  | SockConnectError socket message =>
      with_hook (deliver socket (on_connect_error env message)) w
  | SockReconnectAttempt socket attemptNumber =>
      with_hook (deliver socket (on_reconnect_attempt eo attemptNumber)) w
  | SockReconnectFailed socket =>
      with_hook (deliver socket (on_reconnect_failed eo env)) w
  | SockStateUpdate socket newState =>
      with_hook (deliver socket (on_stateUpdate eo env newState)) w
  | SockStatePartialUpdate socket update =>
      with_hook (deliver socket (on_statePartialUpdate eo env update)) w
  | SockError socket errorPayload =>
      with_hook (deliver socket (on_error env errorPayload)) w
  | IntervalFires => with_hook on_interval w
  | CallUpdateState update => with_hook (fun h => snd (updateState env update h)) w
  | CallReplaceState newState => with_hook (fun h => snd (replaceState ro env newState h)) w
  | CallClearError => with_hook clearError w
  | CallReconnect => with_hook reconnect w
  | CallDisconnect => with_hook (disconnect env) w
  | CallEmit event args => with_hook (emit env event args) w
  | CallOn event listener => with_hook (fun h => snd (on env event listener h)) w
  | CallUnsubscribe u => with_hook (unsubscribe u) w
  end.

(** Running a list of events, each with the environment it happens in. *)
Fixpoint run (evs : list (Env * Event)) (w : Component) : Component :=
  match evs with
  | [] => w
  | (env, ev) :: rest => run rest (step env ev w)
  end.

(** ** Notions used to state the properties *)

(** [k] firings of the interval in a row. *)
Fixpoint intervals (k : nat) (h : Hook) : Hook :=
  match k with
  | O => h
  | S k' => intervals k' (on_interval h)
  end.

(** The two inbound operations of the state synchronizer. *)
Inductive Inbound : Type :=
| FullUpdate (newState : State)
| PartialUpdate (update : State).

Definition receive (opts : Options) (env : Env) (i : Inbound) (h : Hook) : Hook :=
  match i with
  | FullUpdate newState => on_stateUpdate opts env newState h
  | PartialUpdate update => on_statePartialUpdate opts env update h
  end.

(** The state an inbound update would produce: the payload itself for a full
    update, the merge into the current state for a partial one (none while
    there is no current state). *)
Definition candidate (i : Inbound) (h : Hook) : option State :=
  match i with
  | FullUpdate newState => Some newState
  | PartialUpdate update =>
      match state h with
      | Some prev => Some (merge prev update)
      | None => None
      end
  end.

(** The error's [details] hold the payload that was refused. *)
Definition carries (i : Inbound) (h : Hook) (e : SocketError) : Prop :=
  match i with
  | FullUpdate newState => e_details e = Some (DetState newState)
  | PartialUpdate update =>
      exists prev, state h = Some prev /\ e_details e = Some (DetPartial update prev)
  end.

(** A full update followed by partial updates, in order. *)
Definition receive_all (opts : Options) (env : Env)
  (s0 : State) (ps : list State) (h : Hook) : Hook :=
  fold_left (fun h p => on_statePartialUpdate opts env p h) ps
    (on_stateUpdate opts env s0 h).

(** The left-to-right shallow merge of [s0] with [ps]. *)
Definition merge_all (s0 : State) (ps : list State) : State :=
  fold_left merge ps s0.

(** The intermediate candidates of the merges: [s0] merged with [p1], that
    merged with [p2], and so on. *)
Fixpoint merge_candidates (s0 : State) (ps : list State) : list State :=
  match ps with
  | [] => []
  | p :: rest => merge s0 p :: merge_candidates (merge s0 p) rest
  end.

(** The two flags are not both set. *)
Definition exclusive (c : SocketConnectionState) : bool :=
  negb (isConnected c && isConnecting c).

(** An event that leaves the [autoConnect] option off. *)
Definition keeps_autoConnect_off (ev : Event) : bool :=
  match ev with
  | Rerender o => negb (autoConnect o)
  | _ => true
  end.

(** No socket object exists, none is referenced, no cleanup is pending. *)
Definition socketless (w : Component) : Prop :=
  sockets (hook w) = [] /\ socketRef (hook w) = None /\ pending_cleanup w = None.

(** ** A concrete configuration

    The counter state and the validator of the repository's tests and of the
    spec's examples: a state [{count: n}] is valid when [n] is not negative. *)

Definition count_state (n : Z) : State := {[ "count" := VNum n ]}.

Definition count_nonnegative (s : State) : bool :=
  match s !! "count" with
  | Some (VNum n) => 0 <=? n
  | _ => false
  end.

Definition with_validator (validate : State -> bool) (o : Options) : Options :=
  {| socketUrl := socketUrl o; userId := userId o;
     reconnectionAttempts := reconnectionAttempts o;
     reconnectionDelay := reconnectionDelay o;
     reconnectionDelayMax := reconnectionDelayMax o;
     namespace := namespace o; room := room o; autoConnect := autoConnect o;
     stateValidator := Some validate |}.

Definition with_room (r : string) (o : Options) : Options :=
  {| socketUrl := socketUrl o; userId := userId o;
     reconnectionAttempts := reconnectionAttempts o;
     reconnectionDelay := reconnectionDelay o;
     reconnectionDelayMax := reconnectionDelayMax o;
     namespace := namespace o; room := Some r; autoConnect := autoConnect o;
     stateValidator := stateValidator o |}.

Definition with_autoConnect (b : bool) (o : Options) : Options :=
  {| socketUrl := socketUrl o; userId := userId o;
     reconnectionAttempts := reconnectionAttempts o;
     reconnectionDelay := reconnectionDelay o;
     reconnectionDelayMax := reconnectionDelayMax o;
     namespace := namespace o; room := room o; autoConnect := b;
     stateValidator := stateValidator o |}.

Definition sample_options : Options := defaultOptions "ws://localhost:3001" "test-user".

Definition validated_options : Options := with_validator count_nonnegative sample_options.

Definition sample_env : Env := {| now := 1700000000000; rand := "k3x9"; emitThrows := false |}.

(** A mounted hook whose socket has connected. *)
Definition connected_component (o : Options) : Component :=
  step sample_env (SockConnect 0%nat (Some "test-socket-id")) (mount o).

(** ** Further notions: invariants, frames and sample data *)

(** The error slot is empty or holds the error raised last. *)
Definition error_is_latest (h : Hook) : Prop :=
  error h = None \/ error h = last (raised h).

(** For each socket made so far, whether the effect's handlers are on it. *)
Definition hooked_flags (h : Hook) : list bool := hooked <$> sockets h.

(** The only socket that can carry the effect's handlers is the one the pending
    cleanup closes, and [socketRef] points at it. *)
Definition only_pending_hooked (w : Component) : Prop :=
  forall a, hooked_flags (hook w) !! a = Some true ->
            pending_cleanup w = Some a /\ socketRef (hook w) = Some a.

Definition is_rerender (ev : Event) : bool :=
  match ev with Rerender _ => true | _ => false end.

(** Unfolds every handler and operation down to the cell updates. *)
Ltac unfold_hook_ops :=
  unfold step, with_hook, deliver, rerender, unmount, cleanup, effect, disconnect,
    socket_disconnect,
    on_connect, on_disconnect, on_connect_error, on_reconnect_attempt,
    on_reconnect_failed, on_stateUpdate, on_statePartialUpdate, on_error,
    on_interval, updateState, replaceState, clearError, reconnect,
    emit, on, unsubscribe, try_emit_current, try_emit, clearReconnectionTimer,
    handleError, with_socket.

(** The cells a component reads from the hook, and the countdown. *)
Definition cells (h : Hook)
  : option State * SocketConnectionState * option SocketError * ReconnectionInfo
    * option Z * list SocketError :=
  (state h, connection h, error h, reconnectionInfo h, reconnectionTimerRef h, raised h).

(** Events that come from a socket or from the countdown interval. *)
Definition from_socket (ev : Event) : bool :=
  match ev with
  | SockConnect _ _ | SockDisconnect _ _ _ | SockConnectError _ _
  | SockReconnectAttempt _ _ | SockReconnectFailed _
  | SockStateUpdate _ _ | SockStatePartialUpdate _ _ | SockError _ _
  | IntervalFires => true
  | _ => false
  end.

(** No socket carries the effect's handlers. *)
Definition unhooked (h : Hook) : Prop :=
  forall a, hooked_flags h !! a <> Some true.

(** The countdown only runs while a cleanup is pending. *)
Definition timer_needs_cleanup (w : Component) : Prop :=
  pending_cleanup w = None -> reconnectionTimerRef (hook w) = None.

Definition torn_down_ready (w : Component) : Prop :=
  only_pending_hooked w /\ timer_needs_cleanup w.

(** The join messages [on_connect] sends: one when a non-empty room is
    configured, none otherwise. *)
Definition joins (opts : Options) : list ClientMsg :=
  match room opts with
  | Some r => if decide (r = EmptyString) then [] else [JoinRoom r]
  | None => []
  end.

(** The handlers validate with [o], and the application state passes it. *)
Definition state_passes (o : Options) (w : Component) : Prop :=
  effect_opts w = o
  /\ match state (hook w) with
     | Some s => rejects o s = false
     | None => True
     end.

(** The socket of [connected_component sample_options]. *)
Definition sample_socket : Socket :=
  {| sock_id := Some "test-socket-id"; connected := true; sent := []; hooked := true;
     listeners := []; connectCalls := 0 |}.

Definition sample_hook : Hook := hook (connected_component sample_options).

(** A connected hook with a validator, holding the state [{count: n}]. *)
Definition counted_hook (n : Z) : Hook :=
  set_state (Some (count_state n)) (hook (connected_component validated_options)).

(** An environment in which [socket.emit] throws. *)
Definition throwing_env : Env :=
  {| now := 1700000000000; rand := "k3x9"; emitThrows := true |}.

(** A connect, a full update, a refused partial update, a retry and one
    countdown step. *)
Definition sample_trace : list (Env * Event) :=
  [ (sample_env, SockConnect 0%nat (Some "test-socket-id"));
    (sample_env, SockStateUpdate 0%nat (count_state 10));
    (sample_env, SockStatePartialUpdate 0%nat (count_state (-5)));
    (sample_env, SockReconnectAttempt 0%nat 2);
    (sample_env, IntervalFires) ].

(** * Properties *)

(** ** Substring search *)

Lemma string_app_nil_l (s : string) : EmptyString +:+ s = s.
Proof. reflexivity. Qed.

Lemma string_app_cons (c : ascii) (a b : string) :
  String c a +:+ b = String c (a +:+ b).
Proof. reflexivity. Qed.

Lemma string_app_assoc (a b c : string) : (a +:+ b) +:+ c = a +:+ (b +:+ c).
Proof.
  induction a as [|x a IH]; [reflexivity|].
  now rewrite !string_app_cons, IH.
Qed.

Lemma string_prefix_app (needle hay : string) :
  String.prefix needle hay = true <-> exists post, hay = needle +:+ post.
Proof.
  revert hay. induction needle as [|a needle IH]; intros hay.
  - split; [intros _; now exists hay | destruct hay; reflexivity].
  - destruct hay as [|b hay]; simpl.
    + split; [discriminate | intros [post H]; discriminate H].
    + destruct (ascii_dec a b) as [->|Hne].
      * rewrite IH. split; intros [post H]; exists post.
        -- now rewrite string_app_cons, H.
        -- rewrite string_app_cons in H. now injection H.
      * split; [discriminate|].
        intros [post H]. rewrite string_app_cons in H. injection H. congruence.
Qed.

Lemma includes_nil (needle : string) :
  includes EmptyString needle = String.prefix needle EmptyString.
Proof. simpl. apply orb_false_r. Qed.

Lemma includes_cons (c : ascii) (hay needle : string) :
  includes (String c hay) needle
  = String.prefix needle (String c hay) || includes hay needle.
Proof. reflexivity. Qed.

(** [includes] finds exactly the contiguous occurrences. *)
Lemma includes_spec (hay needle : string) :
  includes hay needle = true <-> exists pre post, hay = pre +:+ needle +:+ post.
Proof.
  induction hay as [|c hay IH].
  - rewrite includes_nil, string_prefix_app. split.
    + intros [post H]. now exists EmptyString, post.
    + intros [[|x pre] [post H]]; [now exists post | discriminate H].
  - rewrite includes_cons, orb_true_iff, string_prefix_app, IH. split.
    + intros [[post H] | [pre [post H]]].
      * now exists EmptyString, post.
      * exists (String c pre), post. now rewrite string_app_cons, H.
    + intros [[|x pre] [post H]].
      * left. now exists post.
      * right. rewrite string_app_cons in H. injection H as _ H. now exists pre, post.
Qed.

(** Every message that mentions "unauthorized" also mentions "auth". *)
Lemma includes_unauthorized_auth (message : string) :
  includes message "unauthorized" = true -> includes message "auth" = true.
Proof.
  rewrite !includes_spec. intros [pre [post ->]].
  exists (pre +:+ "un"), ("orized" +:+ post).
  rewrite string_app_assoc. reflexivity.
Qed.

(** ** Error channel *)

Lemma handleError_error env p h :
  error (handleError env p h) = Some (createSocketError env p).
Proof. reflexivity. Qed.

Lemma handleError_raised env p h :
  raised (handleError env p h) = raised h ++ [createSocketError env p].
Proof. reflexivity. Qed.

Lemma handleError_frame env p h :
  state (handleError env p h) = state h
  /\ connection (handleError env p h) = connection h
  /\ reconnectionInfo (handleError env p h) = reconnectionInfo h
  /\ sockets (handleError env p h) = sockets h
  /\ socketRef (handleError env p h) = socketRef h.
Proof. repeat split. Qed.

(** ** Connect failures *)

(** The three tests of [connectErrorType] read as one decision: the last
    test that succeeds wins. *)
Lemma connectErrorType_last_wins (message : string) :
  connectErrorType message =
    if includes message "unauthorized" then type_authorization
    else if includes message "auth" then type_authentication
    else if includes message "timeout" then type_timeout
    else type_connection.
Proof.
  unfold connectErrorType.
  destruct (includes message "unauthorized"), (includes message "auth"),
    (includes message "timeout"); reflexivity.
Qed.

(** C1 (as amended): the error raised for a connect failure has type
    authorization when the message contains "unauthorized"; otherwise
    authentication when it contains "auth"; otherwise timeout when it
    contains "timeout"; otherwise connection.  It becomes the current error
    and is raised exactly once, with the failure's message. *)
Theorem connect_error_type_priority (env : Env) (message : string) (h : Hook) :
  exists e,
    error (on_connect_error env message h) = Some e
    /\ raised (on_connect_error env message h) = raised h ++ [e]
    /\ e_message e = message
    /\ e_type e =
         if includes message "unauthorized" then type_authorization
         else if includes message "auth" then type_authentication
         else if includes message "timeout" then type_timeout
         else type_connection.
Proof.
  eexists. split; [reflexivity|]. split; [reflexivity|]. split; [reflexivity|].
  simpl. apply connectErrorType_last_wins.
Qed.

(** C1 (as stated) fails: a message that contains both "timeout" and "auth"
    is classified as authentication, not as timeout. *)
Lemma connect_error_timeout_overridden :
  let h := hook (mount sample_options) in
  let message := "auth timeout" in
  includes message "timeout" = true
  /\ e_type <$> error (on_connect_error sample_env message h) = Some type_authentication
  /\ e_type <$> error (on_connect_error sample_env message h) <> Some type_timeout.
Proof.
  split; [reflexivity|]. split; [reflexivity|].
  vm_compute. discriminate.
Qed.

(** The repository's own test message for the authorization bucket contains
    "auth" as well, and is classified as authorization. *)
Example connect_error_unauthorized_access :
  includes "unauthorized access" "auth" = true
  /\ connectErrorType "unauthorized access" = type_authorization.
Proof. split; reflexivity. Qed.

(** ** Reconnection countdown *)


(** The handler of a retry notification does not write [nextRetryIn]: the
    field keeps the value it had. *)
Lemma on_reconnect_attempt_keeps_nextRetryIn (opts : Options) (n : Z) (h : Hook) :
  nextRetryIn (reconnectionInfo (on_reconnect_attempt opts n h))
  = nextRetryIn (reconnectionInfo h).
Proof.
  unfold on_reconnect_attempt, clearReconnectionTimer. simpl.
  destruct (reconnectionTimerRef h); reflexivity.
Qed.

Lemma intervals_no_timer (k : nat) (h : Hook) :
  reconnectionTimerRef h = None -> intervals k h = h.
Proof.
  induction k as [|k IH]; intros Hn; [reflexivity|].
  simpl. unfold on_interval. rewrite Hn. now apply IH.
Qed.

Lemma on_interval_live (h : Hook) (timeLeft : Z) :
  reconnectionTimerRef h = Some timeLeft ->
  nextRetryIn (reconnectionInfo (on_interval h)) = Z.max 0 (timeLeft - 1000)
  /\ reconnectionTimerRef (on_interval h)
     = if Z.max 0 (timeLeft - 1000) <=? 0 then None else Some (Z.max 0 (timeLeft - 1000)).
Proof.
  intros Ht. unfold on_interval. rewrite Ht.
  destruct (Z.max 0 (timeLeft - 1000) <=? 0); split; reflexivity.
Qed.

(** From the first firing on, the published countdown is the delay minus one
    second per firing, never below zero. *)
Lemma countdown_after_intervals (k : nat) (h : Hook) (delay : Z) :
  reconnectionTimerRef h = Some delay ->
  nextRetryIn (reconnectionInfo (intervals (S k) h))
  = Z.max 0 (delay - 1000 * Z.of_nat (S k)).
Proof.
  revert h delay. induction k as [|k IH]; intros h delay Ht.
  - simpl intervals. destruct (on_interval_live h delay Ht) as [-> _]. lia.
  - change (intervals (S (S k)) h) with (intervals (S k) (on_interval h)).
    destruct (on_interval_live h delay Ht) as [Hn Hr].
    destruct (Z.leb_spec (Z.max 0 (delay - 1000)) 0) as [Hle|Hgt].
    + rewrite intervals_no_timer by exact Hr. rewrite Hn. lia.
    + rewrite (IH _ _ Hr). lia.
Qed.

Lemma countdown_nonincreasing (k : nat) (h : Hook) (delay : Z) :
  reconnectionTimerRef h = Some delay ->
  nextRetryIn (reconnectionInfo (intervals (S (S k)) h))
  <= nextRetryIn (reconnectionInfo (intervals (S k) h)).
Proof.
  intros Ht. rewrite !(countdown_after_intervals _ h delay Ht). lia.
Qed.

(** The countdown is over, and the interval is cleared, once the firings
    cover the delay. *)
Lemma countdown_finishes (k : nat) (h : Hook) (delay : Z) :
  reconnectionTimerRef h = Some delay ->
  delay <= 1000 * Z.of_nat (S k) ->
  nextRetryIn (reconnectionInfo (intervals (S k) h)) = 0
  /\ reconnectionTimerRef (intervals (S k) h) = None.
Proof.
  intros Ht Hle. split.
  - rewrite (countdown_after_intervals _ h delay Ht). lia.
  - revert h delay Ht Hle. induction k as [|k IH]; intros h delay Ht Hle.
    + simpl intervals. destruct (on_interval_live h delay Ht) as [_ ->].
      destruct (Z.leb_spec (Z.max 0 (delay - 1000)) 0); [reflexivity | lia].
    + change (intervals (S (S k)) h) with (intervals (S k) (on_interval h)).
      destruct (on_interval_live h delay Ht) as [_ Hr].
      destruct (Z.leb_spec (Z.max 0 (delay - 1000)) 0) as [Hz|Hgt].
      * now rewrite intervals_no_timer.
      * apply (IH _ _ Hr). lia.
Qed.

(** C2 at the spec's own example (base delay 1000, cap 5000, attempt 3): the
    delay is 4000 and the countdown variable starts there, but [nextRetryIn]
    still reads 0 once the notification has been handled, and first changes
    one interval later, to 3000. *)
Theorem reconnect_attempt_3_nextRetryIn :
  let w := step sample_env (SockReconnectAttempt 0%nat 3) (mount sample_options) in
  retryDelay sample_options 3 = 4000
  /\ attempt (reconnectionInfo (hook w)) = 3
  /\ reconnectionTimerRef (hook w) = Some 4000
  /\ nextRetryIn (reconnectionInfo (hook w)) = 0
  /\ nextRetryIn (reconnectionInfo (hook (step sample_env IntervalFires w))) = 3000.
Proof. repeat split. Qed.

(** ** Inbound state updates *)

(** C3: when a validator is configured and refuses the candidate state of an
    inbound full or partial update, the application state stays exactly as it
    was, and one validation error that carries the refused payload is raised
    and becomes the current error. *)
Theorem inbound_rejected_keeps_state
  (opts : Options) (env : Env) (validate : State -> bool)
  (i : Inbound) (h : Hook) (c : State) :
  stateValidator opts = Some validate ->
  candidate i h = Some c ->
  validate c = false ->
  state (receive opts env i h) = state h
  /\ exists e,
       error (receive opts env i h) = Some e
       /\ raised (receive opts env i h) = raised h ++ [e]
       /\ e_type e = type_validation
       /\ carries i h e.
Proof.
  intros Hv Hc Hrej.
  assert (Hr : rejects opts c = true) by (unfold rejects; now rewrite Hv, Hrej).
  destruct i as [newState|update]; simpl in *.
  - injection Hc as ->. unfold on_stateUpdate. rewrite Hr.
    split; [reflexivity|]. eexists. repeat split.
  - unfold on_statePartialUpdate. destruct (state h) as [prev|] eqn:Hs; [|discriminate].
    injection Hc as <-. rewrite Hr. split; [exact Hs|].
    eexists. split; [reflexivity|]. split; [reflexivity|]. split; [reflexivity|].
    exists prev. split; reflexivity.
Qed.

(** The validator sees the candidate and nothing else: a candidate that is
    not refused becomes the state, and no error is raised. *)
Lemma inbound_accepted (opts : Options) (env : Env) (i : Inbound) (h : Hook) (c : State) :
  candidate i h = Some c ->
  rejects opts c = false ->
  receive opts env i h = set_state (Some c) h.
Proof.
  intros Hc Hr. destruct i as [newState|update]; simpl in *.
  - injection Hc as ->. unfold on_stateUpdate. now rewrite Hr.
  - unfold on_statePartialUpdate. destruct (state h) as [prev|]; [|discriminate].
    injection Hc as <-. now rewrite Hr.
Qed.

(** C6: a partial update that arrives while the application state is still
    null changes nothing: the state stays null (and no error is raised). *)
Theorem partial_update_on_null_state
  (opts : Options) (env : Env) (update : State) (h : Hook) :
  state h = None ->
  on_statePartialUpdate opts env update h = h
  /\ state (on_statePartialUpdate opts env update h) = None.
Proof.
  intros Hs. unfold on_statePartialUpdate. rewrite Hs. split; [reflexivity | exact Hs].
Qed.

Lemma inbound_rejected_keeps_state_witness :
  let h := set_state (Some (count_state 10)) (initialHook validated_options) in
  let i := PartialUpdate (count_state (-5)) in
  state (receive validated_options sample_env i h) = state h
  /\ exists e,
       error (receive validated_options sample_env i h) = Some e
       /\ raised (receive validated_options sample_env i h) = raised h ++ [e]
       /\ e_type e = type_validation
       /\ carries i h e.
Proof.
  apply (inbound_rejected_keeps_state validated_options sample_env count_nonnegative
           (PartialUpdate (count_state (-5)))
           (set_state (Some (count_state 10)) (initialHook validated_options))
           (merge (count_state 10) (count_state (-5)))).
  - reflexivity.
  - reflexivity.
  - vm_compute. reflexivity.
Defined.

Lemma partial_update_on_null_state_witness :
  let h := hook (mount validated_options) in
  on_statePartialUpdate validated_options sample_env (count_state 15) h = h
  /\ state (on_statePartialUpdate validated_options sample_env (count_state 15) h) = None.
Proof.
  apply (partial_update_on_null_state validated_options sample_env (count_state 15)
           (hook (mount validated_options))).
  reflexivity.
Defined.

(** ** Outbound operations *)

(** C4: while the socket is not connected, [updateState] and [replaceState]
    both return false and raise one error of type connection, which becomes
    the current error; nothing is sent. *)
Theorem update_replace_not_connected
  (opts : Options) (env : Env) (payload : State) (h : Hook) :
  socket_connected h = false ->
  (fst (updateState env payload h) = false
   /\ exists e, error (snd (updateState env payload h)) = Some e
                /\ raised (snd (updateState env payload h)) = raised h ++ [e]
                /\ e_type e = type_connection)
  /\ (fst (replaceState opts env payload h) = false
      /\ exists e, error (snd (replaceState opts env payload h)) = Some e
                   /\ raised (snd (replaceState opts env payload h)) = raised h ++ [e]
                   /\ e_type e = type_connection).
Proof.
  intros Hc. unfold updateState, replaceState. rewrite Hc. simpl.
  split; (split; [reflexivity|]); eexists; repeat split.
Qed.

Lemma update_replace_not_connected_sends_nothing
  (opts : Options) (env : Env) (payload : State) (h : Hook) :
  socket_connected h = false ->
  sockets (snd (updateState env payload h)) = sockets h
  /\ sockets (snd (replaceState opts env payload h)) = sockets h.
Proof. intros Hc. unfold updateState, replaceState. rewrite Hc. split; reflexivity. Qed.

Lemma update_replace_not_connected_witness :
  let h := hook (mount sample_options) in
  (fst (updateState sample_env (count_state 1) h) = false
   /\ exists e, error (snd (updateState sample_env (count_state 1) h)) = Some e
                /\ raised (snd (updateState sample_env (count_state 1) h)) = raised h ++ [e]
                /\ e_type e = type_connection)
  /\ (fst (replaceState sample_options sample_env (count_state 1) h) = false
      /\ exists e, error (snd (replaceState sample_options sample_env (count_state 1) h)) = Some e
                   /\ raised (snd (replaceState sample_options sample_env (count_state 1) h))
                      = raised h ++ [e]
                   /\ e_type e = type_connection).
Proof.
  apply (update_replace_not_connected sample_options sample_env (count_state 1)
           (hook (mount sample_options))).
  reflexivity.
Defined.

(** C7: [replaceState] on a connected socket, with a validator that refuses
    the outgoing payload, returns false, raises exactly one error, of type
    validation, leaves the application state as it was and sends nothing. *)
Theorem replaceState_rejected
  (opts : Options) (env : Env) (validate : State -> bool) (newState : State) (h : Hook) :
  socket_connected h = true ->
  stateValidator opts = Some validate ->
  validate newState = false ->
  fst (replaceState opts env newState h) = false
  /\ (exists e, raised (snd (replaceState opts env newState h)) = raised h ++ [e]
                /\ error (snd (replaceState opts env newState h)) = Some e
                /\ e_type e = type_validation
                /\ e_details e = Some (DetNewState newState))
  /\ state (snd (replaceState opts env newState h)) = state h
  /\ sockets (snd (replaceState opts env newState h)) = sockets h.
Proof.
  intros Hc Hv Hrej. unfold replaceState, rejects. rewrite Hc, Hv, Hrej. simpl.
  split; [reflexivity|]. split; [|split; reflexivity].
  eexists. repeat split.
Qed.

Lemma replaceState_rejected_witness :
  let h := hook (connected_component validated_options) in
  fst (replaceState validated_options sample_env (count_state (-5)) h) = false
  /\ (exists e, raised (snd (replaceState validated_options sample_env (count_state (-5)) h))
                = raised h ++ [e]
                /\ error (snd (replaceState validated_options sample_env (count_state (-5)) h))
                   = Some e
                /\ e_type e = type_validation
                /\ e_details e = Some (DetNewState (count_state (-5))))
  /\ state (snd (replaceState validated_options sample_env (count_state (-5)) h)) = state h
  /\ sockets (snd (replaceState validated_options sample_env (count_state (-5)) h)) = sockets h.
Proof.
  apply (replaceState_rejected validated_options sample_env count_nonnegative
           (count_state (-5)) (hook (connected_component validated_options))).
  - reflexivity.
  - reflexivity.
  - vm_compute. reflexivity.
Defined.

(** ** Sequences of inbound updates *)

Lemma partial_updates_merge (opts : Options) (env : Env) (ps : list State) :
  forall (s : State) (h : Hook),
    state h = Some s ->
    Forall (fun c => rejects opts c = false) (merge_candidates s ps) ->
    state (fold_left (fun h p => on_statePartialUpdate opts env p h) ps h)
    = Some (merge_all s ps).
Proof.
  induction ps as [|p ps IH]; intros s h Hs Hall; [exact Hs|].
  simpl in Hall. inversion Hall as [|c cs Hc Hrest]; subst.
  simpl. apply IH; [|exact Hrest].
  unfold on_statePartialUpdate. rewrite Hs, Hc. reflexivity.
Qed.

(** C5 (as amended): if the full update [s0] itself passes validation, and
    so does every intermediate merge candidate, then after the full update
    and the partial updates [p1..pn] in order the application state is the
    left-to-right shallow merge of [s0] with [p1..pn]. *)
Theorem full_then_partials_merge
  (opts : Options) (env : Env) (s0 : State) (ps : list State) (h : Hook) :
  rejects opts s0 = false ->
  Forall (fun c => rejects opts c = false) (merge_candidates s0 ps) ->
  state (receive_all opts env s0 ps h) = Some (merge_all s0 ps).
Proof.
  intros H0 Hall. unfold receive_all.
  apply partial_updates_merge; [|exact Hall].
  unfold on_stateUpdate. now rewrite H0.
Qed.

Lemma full_then_partials_merge_witness :
  let ps := [ {[ "name" := VStr "initial" ]} ; count_state 15 ] : list State in
  state (receive_all validated_options sample_env (count_state 10) ps
           (hook (mount validated_options)))
  = Some (merge_all (count_state 10) ps).
Proof.
  apply (full_then_partials_merge validated_options sample_env (count_state 10)
           [ {[ "name" := VStr "initial" ]} ; count_state 15 ]
           (hook (mount validated_options))).
  - vm_compute. reflexivity.
  - repeat constructor.
Defined.

(** C5 (as stated) fails: every merge candidate passes validation, but the
    full update itself is refused, so the state stays null and the partial
    update is dropped. *)
Lemma full_update_refused_merge_lost :
  let s0 := count_state (-1) in
  let ps := [count_state 5] in
  let h := hook (mount validated_options) in
  Forall (fun c => rejects validated_options c = false) (merge_candidates s0 ps)
  /\ state (receive_all validated_options sample_env s0 ps h) = None
  /\ state (receive_all validated_options sample_env s0 ps h) <> Some (merge_all s0 ps).
Proof.
  split; [|split].
  - repeat constructor.
  - vm_compute. reflexivity.
  - vm_compute. discriminate.
Qed.

(** ** Connection state *)

Lemma clearReconnectionTimer_connection (h : Hook) :
  connection (clearReconnectionTimer h) = connection h.
Proof. unfold clearReconnectionTimer. now destruct (reconnectionTimerRef h). Qed.

Lemma try_emit_connection (env : Env) (socket : SocketRef) (m : ClientMsg) (h h' : Hook) :
  try_emit env socket m h = Some h' -> connection h' = connection h.
Proof.
  unfold try_emit. destruct (sockets h !! socket); [|discriminate].
  destruct (emitThrows env); [discriminate|]. now intros [= <-].
Qed.

Lemma on_connect_connection (opts : Options) (env : Env) (socket : SocketRef) (h : Hook) :
  isConnected (connection (on_connect opts env socket h)) = true
  /\ isConnecting (connection (on_connect opts env socket h)) = false.
Proof.
  unfold on_connect.
  set (h1 := clearReconnectionTimer _).
  assert (H1 : isConnected (connection h1) = true /\ isConnecting (connection h1) = false).
  { unfold h1. rewrite clearReconnectionTimer_connection. split; reflexivity. }
  destruct (room opts) as [r|]; [|exact H1].
  destruct (decide (r = EmptyString)); [exact H1|].
  destruct (try_emit env socket (JoinRoom r) h1) as [h2|] eqn:He; [|exact H1].
  now rewrite (try_emit_connection _ _ _ _ _ He).
Qed.

Lemma on_connect_exclusive (opts : Options) (env : Env) (socket : SocketRef) (h : Hook) :
  exclusive (connection (on_connect opts env socket h)) = true.
Proof.
  unfold exclusive. destruct (on_connect_connection opts env socket h) as [-> ->].
  reflexivity.
Qed.

(** C9: the disconnect handler sets [isConnected] and [isConnecting] to
    false, stamps [lastDisconnectedAt] and records [disconnectReason];
    [connectionId] and [connectedAt] keep the values of the prior
    connection. *)
Theorem on_disconnect_connection_frame
  (env : Env) (reason : string) (details : option string) (h : Hook) :
  let c := connection h in
  let c' := connection (on_disconnect env reason details h) in
  connectionId c' = connectionId c
  /\ connectedAt c' = connectedAt c
  /\ isConnected c' = false
  /\ isConnecting c' = false
  /\ lastDisconnectedAt c' = Some (now env)
  /\ disconnectReason c' = Some reason.
Proof.
  unfold on_disconnect. simpl.
  destruct (decide (reason = "io server disconnect")); repeat split.
Qed.

Lemma on_disconnect_exclusive
  (env : Env) (reason : string) (details : option string) (h : Hook) :
  exclusive (connection (on_disconnect env reason details h)) = true.
Proof.
  unfold exclusive, on_disconnect.
  destruct (decide (reason = "io server disconnect")); reflexivity.
Qed.

Lemma on_connect_error_exclusive (env : Env) (message : string) (h : Hook) :
  exclusive (connection h) = true ->
  exclusive (connection (on_connect_error env message h)) = true.
Proof.
  unfold exclusive, on_connect_error. simpl. now rewrite andb_false_r.
Qed.

(** The start of a connection attempt keeps the flags apart only when the
    hook does not already count as connected. *)
Lemma effect_exclusive (opts : Options) (h : Hook) :
  isConnected (connection h) = false ->
  exclusive (connection (snd (effect opts h))) = true.
Proof.
  intros Hc. unfold effect, exclusive.
  destruct (autoConnect opts); simpl; now rewrite Hc.
Qed.

Lemma effect_sets_isConnecting (opts : Options) (h : Hook) :
  autoConnect opts = true ->
  isConnected (connection (snd (effect opts h))) = isConnected (connection h)
  /\ isConnecting (connection (snd (effect opts h))) = true.
Proof. intros Ha. unfold effect. rewrite Ha. split; reflexivity. Qed.

(** The cleanup takes the handlers off before it closes the socket, so the
    connection state is not touched by it. *)
Lemma cleanup_connection (env : Env) (socket : SocketRef) (h : Hook) :
  connection (cleanup env socket h) = connection h.
Proof.
  unfold cleanup, socket_disconnect, with_socket. simpl.
  rewrite list_lookup_alter, decide_True by reflexivity.
  destruct (sockets (clearReconnectionTimer h) !! socket) as [s|] eqn:Hs; simpl.
  - rewrite andb_false_r. apply clearReconnectionTimer_connection.
  - apply clearReconnectionTimer_connection.
Qed.

(** C8 at a reachable state: the hook mounts, its socket connects, and the
    component renders again with another room.  The effect runs again and
    sets [isConnecting] while [isConnected] is still true. *)
Theorem rerender_after_connect_both_flags :
  let w := step sample_env (Rerender (with_room "lobby" sample_options))
             (connected_component sample_options) in
  exclusive (connection (hook (mount sample_options))) = true
  /\ exclusive (connection (hook (connected_component sample_options))) = true
  /\ isConnected (connection (hook w)) = true
  /\ isConnecting (connection (hook w)) = true.
Proof. repeat split. Qed.

(** ** Without auto-connect *)

Lemma mount_socketless (o : Options) :
  autoConnect o = false -> socketless (mount o).
Proof. intros Ha. unfold mount, effect. rewrite Ha. repeat split. Qed.

Lemma step_socketless (env : Env) (ev : Event) (w : Component) :
  keeps_autoConnect_off ev = true -> socketless w -> socketless (step env ev w).
Proof.
  intros Hev (Hs & Hr & Hp).
  destruct w as [ro eo pc h]. simpl in Hs, Hr, Hp. subst pc.
  destruct ev; simpl in Hev; unfold step, with_hook, deliver, with_socket, socketless;
    cbn [hook pending_cleanup render_opts effect_opts set_sockets sockets socketRef].
  - (* Rerender *)
    unfold rerender. cbn [render_opts pending_cleanup hook effect_opts].
    destruct (decide (deps o = deps ro)); cbn [hook pending_cleanup]; [easy|].
    unfold effect. apply negb_true_iff in Hev. rewrite Hev. easy.
  - rewrite Hs. easy.
  - rewrite Hs. easy.
  - rewrite Hs. easy.
  - rewrite Hs. easy.
  - rewrite Hs. easy.
  - rewrite Hs. easy.
  - rewrite Hs. easy.
  - rewrite Hs. easy.
  - unfold on_interval. destruct (reconnectionTimerRef h); [|easy].
    destruct (_ <=? _); unfold clearReconnectionTimer; simpl; easy.
  - unfold updateState, socket_connected. rewrite Hr. easy.
  - unfold replaceState, socket_connected. rewrite Hr. easy.
  - easy.
  - unfold reconnect. rewrite Hr. easy.
  - unfold disconnect, socket_connected. rewrite Hr. easy.
  - unfold emit, socket_connected. rewrite Hr. easy.
  - unfold on. rewrite Hr. easy.
  - destruct u; [easy|]. unfold unsubscribe, with_socket. simpl. rewrite Hs. easy.
Qed.

Lemma run_socketless (evs : list (Env * Event)) (w : Component) :
  forallb (fun x => keeps_autoConnect_off (snd x)) evs = true ->
  socketless w -> socketless (run evs w).
Proof.
  revert w. induction evs as [|[env ev] evs IH]; intros w Hall Hw; [exact Hw|].
  simpl in Hall. apply andb_true_iff in Hall as [Hev Hall].
  simpl. apply IH; [exact Hall|]. now apply step_socketless.
Qed.

(** C10: a hook mounted with [autoConnect] false, and rendered with it false
    ever after, never creates a socket.  In every state it reaches,
    [updateState] and [replaceState] return false and raise an error of type
    connection, [emit], [reconnect] and [disconnect] change nothing, and [on]
    registers nothing and returns the closure that does nothing. *)
Theorem autoConnect_off_no_socket
  (o : Options) (evs : list (Env * Event)) (env : Env) :
  autoConnect o = false ->
  forallb (fun x => keeps_autoConnect_off (snd x)) evs = true ->
  let w := run evs (mount o) in
  let h := hook w in
  sockets h = [] /\ socketRef h = None
  /\ (forall update,
        fst (updateState env update h) = false
        /\ e_type <$> error (snd (updateState env update h)) = Some type_connection
        /\ length (raised (snd (updateState env update h))) = S (length (raised h)))
  /\ (forall newState,
        fst (replaceState (render_opts w) env newState h) = false
        /\ e_type <$> error (snd (replaceState (render_opts w) env newState h))
           = Some type_connection
        /\ length (raised (snd (replaceState (render_opts w) env newState h)))
           = S (length (raised h)))
  /\ (forall event args, emit env event args h = h)
  /\ reconnect h = h
  /\ disconnect env h = h
  /\ (forall event listener,
        on env event listener h = (UnsubNothing, h)
        /\ forall h', unsubscribe (fst (on env event listener h)) h' = h').
Proof.
  intros Ha Hall w h.
  destruct (run_socketless evs (mount o) Hall (mount_socketless o Ha)) as (Hs & Hr & _).
  fold w in Hs, Hr. fold h in Hs, Hr.
  assert (Hc : socket_connected h = false) by (unfold socket_connected; now rewrite Hr).
  split; [exact Hs|]. split; [exact Hr|].
  split; [|split; [|split; [|split; [|split]]]].
  - intros update. unfold updateState. rewrite Hc. simpl.
    repeat split. rewrite length_app. simpl. lia.
  - intros newState. unfold replaceState. rewrite Hc. simpl.
    repeat split. rewrite length_app. simpl. lia.
  - intros event args. unfold emit. now rewrite Hc.
  - unfold reconnect. now rewrite Hr.
  - unfold disconnect. now rewrite Hc.
  - intros event listener. unfold on. rewrite Hr. split; reflexivity.
Qed.

Lemma autoConnect_off_no_socket_witness :
  let o := with_autoConnect false sample_options in
  let evs := [ (sample_env, CallOn "userJoined" 7%nat);
               (sample_env, CallReconnect);
               (sample_env, Rerender (with_room "lobby" o));
               (sample_env, CallUpdateState (count_state 1)) ] in
  let w := run evs (mount o) in
  let h := hook w in
  sockets h = [] /\ socketRef h = None
  /\ (forall update,
        fst (updateState sample_env update h) = false
        /\ e_type <$> error (snd (updateState sample_env update h)) = Some type_connection
        /\ length (raised (snd (updateState sample_env update h))) = S (length (raised h)))
  /\ (forall newState,
        fst (replaceState (render_opts w) sample_env newState h) = false
        /\ e_type <$> error (snd (replaceState (render_opts w) sample_env newState h))
           = Some type_connection
        /\ length (raised (snd (replaceState (render_opts w) sample_env newState h)))
           = S (length (raised h)))
  /\ (forall event args, emit sample_env event args h = h)
  /\ reconnect h = h
  /\ disconnect sample_env h = h
  /\ (forall event listener,
        on sample_env event listener h = (UnsubNothing, h)
        /\ forall h', unsubscribe (fst (on sample_env event listener h)) h' = h').
Proof.
  apply (autoConnect_off_no_socket (with_autoConnect false sample_options)
           [ (sample_env, CallOn "userJoined" 7%nat);
             (sample_env, CallReconnect);
             (sample_env, Rerender (with_room "lobby" (with_autoConnect false sample_options)));
             (sample_env, CallUpdateState (count_state 1)) ]
           sample_env).
  - reflexivity.
  - reflexivity.
Defined.

(** * Further properties of the hook *)

Lemma run_preserves (P : Component -> Prop) (ok : Event -> bool) :
  (forall env ev w, ok ev = true -> P w -> P (step env ev w)) ->
  forall evs w, forallb (fun x => ok (snd x)) evs = true -> P w -> P (run evs w).
Proof.
  intros Hstep evs. induction evs as [|[env ev] evs IH]; intros w Hall Hw; [exact Hw|].
  simpl in Hall. apply andb_true_iff in Hall as [Hev Hall].
  simpl. apply IH; [exact Hall|]. now apply Hstep.
Qed.

Lemma step_error_is_latest env ev w :
  error_is_latest (hook w) -> error_is_latest (hook (step env ev w)).
Proof.
  unfold error_is_latest. intros H. destruct w as [ro eo pc h]. simpl in H.
  destruct ev; unfold_hook_ops; simpl;
    repeat (case_match; simpl); simplify_eq/=; rewrite ?last_snoc; auto.
Qed.

Lemma hooked_alter (f : Socket -> Socket) (a : SocketRef) (l : list Socket) :
  (forall s, hooked (f s) = hooked s) ->
  hooked <$> alter f a l = hooked <$> l.
Proof.
  intros Hf. revert a. induction l as [|s l IH]; intros [|a]; simpl; [reflexivity..| |].
  - now rewrite Hf.
  - f_equal. apply IH.
Qed.

Lemma step_hooked_flags env ev w :
  is_rerender ev = false ->
  hooked_flags (hook (step env ev w)) = hooked_flags (hook w)
  /\ socketRef (hook (step env ev w)) = socketRef (hook w)
  /\ pending_cleanup (step env ev w) = pending_cleanup w.
Proof.
  intros Hev. destruct w as [ro eo pc h]. unfold hooked_flags.
  destruct ev; try discriminate Hev; unfold_hook_ops; simpl;
    repeat (case_match; simpl); simplify_eq/=;
    rewrite ?hooked_alter by (intros []; reflexivity); auto.
Qed.

Lemma mount_only_pending_hooked (o : Options) : only_pending_hooked (mount o).
Proof.
  unfold only_pending_hooked, mount, effect, hooked_flags.
  destruct (autoConnect o); simpl; intros [|a] Ha; try discriminate; auto.
Qed.

Lemma hooked_flags_cleanup env socket h :
  (forall a, hooked_flags h !! a = Some true -> a = socket) ->
  forall a, hooked_flags (cleanup env socket h) !! a <> Some true.
Proof.
  intros Honly a. unfold hooked_flags.
  assert (Hs : hooked <$> sockets (cleanup env socket h)
               = hooked <$> alter (sock_set_hooked false) socket (sockets h)).
  { unfold cleanup, socket_disconnect, with_socket, clearReconnectionTimer.
    repeat (case_match; simpl);
      rewrite ?hooked_alter by (intros []; reflexivity); reflexivity. }
  rewrite Hs, list_lookup_fmap.
  destruct (decide (a = socket)) as [->|Hne].
  - rewrite list_lookup_alter_eq. destruct (sockets h !! socket); simpl; congruence.
  - rewrite list_lookup_alter_ne by congruence. rewrite <- list_lookup_fmap.
    intros Ha. apply Hne. now apply Honly.
Qed.

Lemma effect_only_hooked opts h :
  (forall a, hooked_flags h !! a <> Some true) ->
  forall a, hooked_flags (snd (effect opts h)) !! a = Some true ->
            fst (effect opts h) = Some a /\ socketRef (snd (effect opts h)) = Some a.
Proof.
  intros Hnone a. unfold effect, hooked_flags, with_socket.
  destruct (autoConnect opts); simpl; [|intros Ha; now apply Hnone in Ha].
  rewrite list_lookup_fmap. intros Ha.
  destruct (decide (a = length (sockets h))) as [->|Hne]; [auto|].
  exfalso. rewrite list_lookup_alter_ne in Ha by congruence.
  destruct (decide (a < length (sockets h))%nat).
  - rewrite lookup_app_l in Ha by assumption.
    apply (Hnone a). unfold hooked_flags. now rewrite list_lookup_fmap.
  - rewrite lookup_ge_None_2 in Ha; [discriminate|]. rewrite length_app. simpl. lia.
Qed.

Lemma step_only_pending_hooked env ev w :
  only_pending_hooked w -> only_pending_hooked (step env ev w).
Proof.
  intros Hw. destruct (is_rerender ev) eqn:Hev.
  - destruct ev; try discriminate Hev. clear Hev.
    unfold step, rerender.
    destruct (decide (deps o = deps (render_opts w))); [exact Hw|].
    set (h1 := match pending_cleanup w with
               | Some socket => cleanup env socket (hook w)
               | None => hook w
               end).
    assert (Hnone : forall a, hooked_flags h1 !! a <> Some true).
    { unfold h1. destruct (pending_cleanup w) as [socket|] eqn:Hp.
      - apply hooked_flags_cleanup. intros a Ha.
        destruct (Hw a Ha) as [Hpa _]. congruence.
      - intros a Ha. destruct (Hw a Ha) as [Hpa _]. congruence. }
    pose proof (effect_only_hooked o h1 Hnone) as He.
    destruct (effect o h1) as [c h2]. exact He.
  - destruct (step_hooked_flags env ev w Hev) as (Hf & Hr & Hp).
    intros a Ha. rewrite Hf in Ha. rewrite Hr, Hp. now apply Hw.
Qed.

Lemma deliver_unhooked socket f h : unhooked h -> deliver socket f h = h.
Proof.
  intros Hn. unfold deliver. destruct (sockets h !! socket) as [s|] eqn:Hs; [|reflexivity].
  destruct (hooked s) eqn:Hh; [|reflexivity].
  exfalso. apply (Hn socket). unfold hooked_flags. now rewrite list_lookup_fmap, Hs, <- Hh.
Qed.

Lemma with_socket_unhooked socket f h :
  (forall s, hooked (f s) = hooked s) -> unhooked h -> unhooked (with_socket socket f h).
Proof.
  intros Hf Hn a. unfold hooked_flags, with_socket. simpl.
  rewrite hooked_alter by exact Hf. apply Hn.
Qed.

Lemma step_unhooked_cells env ev w :
  from_socket ev = true ->
  unhooked (hook w) ->
  reconnectionTimerRef (hook w) = None ->
  cells (hook (step env ev w)) = cells (hook w).
Proof.
  intros Hev Hn Ht. destruct w as [ro eo pc h]. simpl in Hn, Ht.
  destruct ev; try discriminate Hev; unfold step, with_hook; cbn [hook];
    rewrite ?deliver_unhooked
      by first [exact Hn | apply with_socket_unhooked; [intros []; reflexivity | exact Hn]];
    try reflexivity.
  unfold on_interval. now rewrite Ht.
Qed.

Lemma cleanup_timer env socket h : reconnectionTimerRef (cleanup env socket h) = None.
Proof.
  unfold_hook_ops. repeat (case_match; simpl); simplify_eq/=; auto.
Qed.

Lemma only_pending_hooked_unhooked w :
  only_pending_hooked w -> pending_cleanup w = None -> unhooked (hook w).
Proof. intros Hw Hp a Ha. destruct (Hw a Ha) as [Hpa _]. congruence. Qed.

Lemma effect_timer opts h :
  reconnectionTimerRef (snd (effect opts h)) = reconnectionTimerRef h.
Proof. unfold effect. now destruct (autoConnect opts). Qed.

Lemma step_call_timer env ev w :
  is_rerender ev = false -> from_socket ev = false ->
  reconnectionTimerRef (hook (step env ev w)) = reconnectionTimerRef (hook w).
Proof.
  intros Hr Hs. destruct w as [ro eo pc h].
  destruct ev; try discriminate Hr; try discriminate Hs; unfold_hook_ops; simpl;
    repeat (case_match; simpl); simplify_eq/=; auto.
Qed.

Lemma step_torn_down_ready env ev w :
  torn_down_ready w -> torn_down_ready (step env ev w).
Proof.
  intros [Hh Ht]. split; [now apply step_only_pending_hooked|].
  unfold timer_needs_cleanup in *.
  destruct (is_rerender ev) eqn:Hev.
  - destruct ev; try discriminate Hev.
    unfold step, rerender.
    destruct (decide (deps o = deps (render_opts w))) as [Hd|Hd]; [exact Ht|].
    set (h1 := match pending_cleanup w with
               | Some socket => cleanup env socket (hook w)
               | None => hook w
               end).
    assert (H1 : reconnectionTimerRef h1 = None).
    { unfold h1. destruct (pending_cleanup w); [apply cleanup_timer | now apply Ht]. }
    pose proof (effect_timer o h1) as He.
    destruct (effect o h1) as [c h2]. simpl in *. intros _. congruence.
  - destruct (step_hooked_flags env ev w Hev) as (_ & _ & Hp).
    rewrite Hp. intros Hnone.
    destruct (from_socket ev) eqn:Hs.
    + assert (Hc := step_unhooked_cells env ev w Hs
                      (only_pending_hooked_unhooked w Hh Hnone) (Ht Hnone)).
      unfold cells in Hc. injection Hc as _ _ _ _ Hc _. rewrite Hc. now apply Ht.
    + rewrite (step_call_timer env ev w Hev Hs). now apply Ht.
Qed.

Lemma mount_torn_down_ready o : torn_down_ready (mount o).
Proof.
  split; [apply mount_only_pending_hooked|].
  unfold timer_needs_cleanup, mount, effect. now destruct (autoConnect o).
Qed.

Lemma run_torn_down_ready evs w : torn_down_ready w -> torn_down_ready (run evs w).
Proof.
  revert w. induction evs as [|[env ev] evs IH]; intros w Hw; [exact Hw|].
  simpl. apply IH. now apply step_torn_down_ready.
Qed.

Lemma unmount_unhooked env w :
  torn_down_ready w ->
  unhooked (hook (unmount env w))
  /\ reconnectionTimerRef (hook (unmount env w)) = None.
Proof.
  intros [Hh Ht]. unfold unmount.
  destruct (pending_cleanup w) as [socket|] eqn:Hp; cbn [hook].
  - split; [|apply cleanup_timer].
    unfold unhooked. apply hooked_flags_cleanup. intros a Ha. destruct (Hh a Ha) as [Hpa _]. congruence.
  - split; [now apply only_pending_hooked_unhooked | now apply Ht].
Qed.

(** X21: After an unmount no socket carries the effect's handlers and no
    countdown runs: no socket event and no interval firing changes a cell. *)
Theorem unmounted_ignores_socket (o : Options) (evs : list (Env * Event))
  (env env' : Env) (ev : Event) :
  from_socket ev = true ->
  let w := unmount env (run evs (mount o)) in
  reconnectionTimerRef (hook w) = None
  /\ (forall a s, sockets (hook w) !! a = Some s -> hooked s = false)
  /\ cells (hook (step env' ev w)) = cells (hook w).
Proof.
  intros Hev w.
  destruct (unmount_unhooked env (run evs (mount o))
              (run_torn_down_ready evs _ (mount_torn_down_ready o))) as [Hn Ht].
  fold w in Hn, Ht. split; [exact Ht|]. split.
  - intros a s Hs. destruct (hooked s) eqn:Hh; [|reflexivity].
    exfalso. apply (Hn a). unfold hooked_flags. now rewrite list_lookup_fmap, Hs, <- Hh.
  - now apply step_unhooked_cells.
Qed.

Lemma unmounted_ignores_socket_witness :
  let w := unmount sample_env (run sample_trace (mount sample_options)) in
  reconnectionTimerRef (hook w) = None
  /\ (forall a s, sockets (hook w) !! a = Some s -> hooked s = false)
  /\ cells (hook (step sample_env (SockStateUpdate 0%nat (count_state 42)) w))
     = cells (hook w).
Proof.
  apply (unmounted_ignores_socket sample_options sample_trace sample_env sample_env
           (SockStateUpdate 0%nat (count_state 42))).
  reflexivity.
Defined.

(** X1: The merge of a partial update is shallow and key by key: a property the
    update has takes the update's value, every other property keeps the value
    of the previous state. *)
Theorem merge_lookup (prev update : State) (k : string) :
  merge prev update !! k
  = match update !! k with
    | Some v => Some v
    | None => prev !! k
    end.
Proof.
  unfold merge. rewrite lookup_union.
  destruct (update !! k), (prev !! k); reflexivity.
Qed.

Lemma merge_assoc (s p q : State) : merge (merge s p) q = merge s (merge p q).
Proof. unfold merge. apply (assoc_L (∪)). Qed.

(** X2: Two partial updates that are both accepted leave the same state as
    the single partial update that merges them. *)
Theorem partial_updates_compose
  (opts : Options) (env : Env) (p q : State) (h : Hook) (s : State) :
  state h = Some s ->
  rejects opts (merge s p) = false ->
  rejects opts (merge (merge s p) q) = false ->
  state (on_statePartialUpdate opts env q (on_statePartialUpdate opts env p h))
  = state (on_statePartialUpdate opts env (merge p q) h)
  /\ state (on_statePartialUpdate opts env (merge p q) h) = Some (merge (merge s p) q).
Proof.
  intros Hs Hp Hq.
  assert (H1 : on_statePartialUpdate opts env p h = set_state (Some (merge s p)) h).
  { unfold on_statePartialUpdate. now rewrite Hs, Hp. }
  rewrite H1. unfold on_statePartialUpdate at 1. cbn [state set_state]. rewrite Hq.
  unfold on_statePartialUpdate. rewrite Hs, <- merge_assoc, Hq. split; reflexivity.
Qed.

Lemma partial_updates_compose_witness :
  state (on_statePartialUpdate validated_options sample_env (count_state 3)
           (on_statePartialUpdate validated_options sample_env
              {[ "name" := VStr "initial" ]} (counted_hook 10)))
  = state (on_statePartialUpdate validated_options sample_env
             (merge {[ "name" := VStr "initial" ]} (count_state 3)) (counted_hook 10))
  /\ state (on_statePartialUpdate validated_options sample_env
              (merge {[ "name" := VStr "initial" ]} (count_state 3)) (counted_hook 10))
     = Some (merge (merge (count_state 10) {[ "name" := VStr "initial" ]}) (count_state 3)).
Proof.
  apply (partial_updates_compose validated_options sample_env
           {[ "name" := VStr "initial" ]} (count_state 3) (counted_hook 10) (count_state 10)).
  - reflexivity.
  - vm_compute. reflexivity.
  - vm_compute. reflexivity.
Defined.

Lemma try_emit_cells env socket m h h' :
  try_emit env socket m h = Some h' -> cells h' = cells h.
Proof.
  unfold try_emit. destruct (sockets h !! socket); [|discriminate].
  destruct (emitThrows env); [discriminate|]. now intros [= <-].
Qed.

Lemma on_connect_cells (opts : Options) (env : Env) (socket : SocketRef) (h : Hook) :
  cells (on_connect opts env socket h)
  = (state h,
     {| isConnected := true; isConnecting := false;
        connectionId := match sockets h !! socket with
                        | Some s => id_or_undefined (sock_id s)
                        | None => None
                        end;
        connectedAt := Some (now env);
        lastDisconnectedAt := None; disconnectReason := None |},
     None,
     {| attempt := 0; maxAttempts := maxAttempts (reconnectionInfo h);
        nextRetryIn := 0; isReconnecting := false;
        lastFailureReason := lastFailureReason (reconnectionInfo h) |},
     None, raised h).
Proof.
  unfold on_connect.
  set (h1 := clearReconnectionTimer _).
  match goal with |- _ = ?rhs => assert (H1 : cells h1 = rhs) end.
  { unfold h1, clearReconnectionTimer. simpl.
    destruct (reconnectionTimerRef h) eqn:Ht; unfold cells; simpl; rewrite ?Ht; reflexivity. }
  destruct (room opts) as [r|]; [|exact H1].
  destruct (decide (r = EmptyString)); [exact H1|].
  destruct (try_emit env socket (JoinRoom r) h1) as [h2|] eqn:He; [|exact H1].
  now rewrite (try_emit_cells _ _ _ _ _ He).
Qed.

(** X4: A connect clears the error, resets attempt, nextRetryIn and
    isReconnecting, keeps maxAttempts, and stops the countdown: later firings
    of the interval change nothing. *)
Theorem connect_stops_countdown
  (opts : Options) (env : Env) (socket : SocketRef) (h : Hook) (k : nat) :
  let h' := intervals k (on_connect opts env socket h) in
  reconnectionTimerRef h' = None
  /\ attempt (reconnectionInfo h') = 0
  /\ nextRetryIn (reconnectionInfo h') = 0
  /\ isReconnecting (reconnectionInfo h') = false
  /\ maxAttempts (reconnectionInfo h') = maxAttempts (reconnectionInfo h)
  /\ error h' = None.
Proof.
  pose proof (on_connect_cells opts env socket h) as Hc.
  unfold cells in Hc. injection Hc as _ _ He Hr Ht _.
  intros h'. unfold h'. rewrite intervals_no_timer by exact Ht.
  rewrite Ht, Hr, He. repeat split.
Qed.


Lemma sock_emit_nothing (s : Socket) :
  {| sock_id := sock_id s; connected := connected s; sent := sent s ++ [];
     hooked := hooked s; listeners := listeners s; connectCalls := connectCalls s |} = s.
Proof. destruct s. simpl. now rewrite app_nil_r. Qed.

(** X5: On connect, when [socket.emit] does not throw, the socket is sent
    exactly one joinRoom message if a non-empty room is configured and nothing
    otherwise; no other socket is touched. *)
Theorem connect_joins_room
  (opts : Options) (env : Env) (socket : SocketRef) (h : Hook) (s : Socket) :
  sockets h !! socket = Some s ->
  emitThrows env = false ->
  exists s',
    sockets (on_connect opts env socket h) !! socket = Some s'
    /\ sent s' = sent s ++ joins opts
    /\ connected s' = connected s
    /\ listeners s' = listeners s
    /\ forall other, other <> socket ->
         sockets (on_connect opts env socket h) !! other = sockets h !! other.
Proof.
  intros Hs Hthrow. unfold on_connect, joins.
  set (h1 := clearReconnectionTimer _).
  assert (H1 : sockets h1 = sockets h).
  { unfold h1, clearReconnectionTimer. simpl. now destruct (reconnectionTimerRef h). }
  assert (Hsame : exists s', sockets h1 !! socket = Some s'
                     /\ sent s' = sent s ++ [] /\ connected s' = connected s
                     /\ listeners s' = listeners s
                     /\ forall other, other <> socket ->
                          sockets h1 !! other = sockets h !! other).
  { exists s. rewrite H1, app_nil_r. repeat split; try reflexivity. exact Hs. }
  destruct (room opts) as [r|]; [|exact Hsame].
  destruct (decide (r = EmptyString)); [exact Hsame|].
  unfold try_emit. rewrite H1, Hs, Hthrow. unfold with_socket. simpl.
  exists (sock_emit (JoinRoom r) s). rewrite H1.
  split; [now rewrite list_lookup_alter_eq, Hs|].
  repeat split. intros other Hne. now rewrite list_lookup_alter_ne by congruence.
Qed.

Lemma connect_joins_room_witness :
  exists s',
    sockets (on_connect (with_room "lobby" sample_options) sample_env 0%nat sample_hook)
      !! 0%nat = Some s'
    /\ sent s' = sent sample_socket ++ joins (with_room "lobby" sample_options)
    /\ connected s' = connected sample_socket
    /\ listeners s' = listeners sample_socket
    /\ forall other, other <> 0%nat ->
         sockets (on_connect (with_room "lobby" sample_options) sample_env 0%nat sample_hook)
           !! other = sockets sample_hook !! other.
Proof.
  apply (connect_joins_room (with_room "lobby" sample_options) sample_env 0%nat
           sample_hook sample_socket).
  - reflexivity.
  - reflexivity.
Defined.

(** X6: A disconnect whose reason is not "io server disconnect" raises no
    error: error slot, error history, application state, reconnection info,
    countdown and sockets stay as they were. *)
Theorem disconnect_without_server_reason
  (env : Env) (reason : string) (details : option string) (h : Hook) :
  reason <> "io server disconnect" ->
  error (on_disconnect env reason details h) = error h
  /\ raised (on_disconnect env reason details h) = raised h
  /\ state (on_disconnect env reason details h) = state h
  /\ reconnectionInfo (on_disconnect env reason details h) = reconnectionInfo h
  /\ reconnectionTimerRef (on_disconnect env reason details h) = reconnectionTimerRef h
  /\ sockets (on_disconnect env reason details h) = sockets h.
Proof.
  intros Hne. unfold on_disconnect.
  destruct (decide (reason = "io server disconnect")); [contradiction|].
  repeat split.
Qed.

Lemma disconnect_without_server_reason_witness :
  error (on_disconnect sample_env "transport close" None sample_hook) = error sample_hook
  /\ raised (on_disconnect sample_env "transport close" None sample_hook) = raised sample_hook
  /\ state (on_disconnect sample_env "transport close" None sample_hook) = state sample_hook
  /\ reconnectionInfo (on_disconnect sample_env "transport close" None sample_hook)
     = reconnectionInfo sample_hook
  /\ reconnectionTimerRef (on_disconnect sample_env "transport close" None sample_hook)
     = reconnectionTimerRef sample_hook
  /\ sockets (on_disconnect sample_env "transport close" None sample_hook)
     = sockets sample_hook.
Proof.
  apply (disconnect_without_server_reason sample_env "transport close" None sample_hook).
  discriminate.
Defined.

(** X7: When reconnection has failed for good the countdown stops at 0 and
    stays there, isReconnecting is cleared, the attempt number is kept, and one
    connection error that carries the configured maximum is raised. *)
Theorem reconnect_failed_stops_countdown
  (opts : Options) (env : Env) (h : Hook) (k : nat) :
  let h' := intervals k (on_reconnect_failed opts env h) in
  reconnectionTimerRef h' = None
  /\ nextRetryIn (reconnectionInfo h') = 0
  /\ isReconnecting (reconnectionInfo h') = false
  /\ attempt (reconnectionInfo h') = attempt (reconnectionInfo h)
  /\ exists e,
       error h' = Some e
       /\ raised h' = raised h ++ [e]
       /\ e_type e = type_connection
       /\ e_details e = Some (DetMaxAttempts (reconnectionAttempts opts)).
Proof.
  assert (Ht : reconnectionTimerRef (on_reconnect_failed opts env h) = None).
  { unfold on_reconnect_failed, clearReconnectionTimer.
    destruct (reconnectionTimerRef h) eqn:E; simpl; [reflexivity | exact E]. }
  intros h'. unfold h'. rewrite intervals_no_timer by exact Ht.
  split; [exact Ht|].
  unfold on_reconnect_failed, clearReconnectionTimer.
  destruct (reconnectionTimerRef h); simpl; repeat split; eexists; repeat split.
Qed.




(** X9: With a non-negative base delay, the retry delay never decreases from
    one attempt to a later one and never exceeds the configured cap. *)
Theorem retryDelay_monotone_capped (opts : Options) (n m : Z) :
  0 <= reconnectionDelay opts ->
  1 <= n -> n <= m ->
  retryDelay opts n <= retryDelay opts m
  /\ retryDelay opts m <= reconnectionDelayMax opts.
Proof.
  intros Hb Hn Hm. unfold retryDelay. split; [|apply Z.le_min_r].
  apply Z.min_le_compat_r. apply Z.mul_le_mono_nonneg_l; [exact Hb|].
  apply Z.pow_le_mono_r; lia.
Qed.

Lemma retryDelay_monotone_capped_witness :
  retryDelay sample_options 2 <= retryDelay sample_options 4
  /\ retryDelay sample_options 4 <= reconnectionDelayMax sample_options.
Proof.
  apply (retryDelay_monotone_capped sample_options 2 4).
  - simpl. lia.
  - lia.
  - lia.
Defined.

(** X11: [updateState] never changes the application state or the connection
    state.  It either returns true, having sent exactly one updateState message
    on the connected current socket and raised nothing, or returns false,
    having sent nothing and raised exactly one connection or unknown error. *)
Theorem updateState_outcome (env : Env) (update : State) (h : Hook) :
  let r := updateState env update h in
  state (snd r) = state h
  /\ connection (snd r) = connection h
  /\ ((fst r = true
       /\ error (snd r) = error h /\ raised (snd r) = raised h
       /\ exists socket s,
            socketRef h = Some socket /\ sockets h !! socket = Some s
            /\ connected s = true
            /\ sockets (snd r) = alter (sock_emit (UpdateState update)) socket (sockets h))
      \/ (fst r = false
          /\ sockets (snd r) = sockets h
          /\ exists e,
               error (snd r) = Some e /\ raised (snd r) = raised h ++ [e]
               /\ (e_type e = type_connection \/ e_type e = type_unknown))).
Proof.
  unfold updateState.
  destruct (socket_connected h) eqn:Hc; simpl.
  - unfold try_emit_current, try_emit. unfold socket_connected in Hc.
    destruct (socketRef h) as [socket|] eqn:Hr; [|discriminate].
    destruct (sockets h !! socket) as [s|] eqn:Hs; [|discriminate].
    destruct (emitThrows env); simpl.
    + split; [reflexivity|]. split; [reflexivity|]. right.
      split; [reflexivity|]. split; [reflexivity|].
      eexists. split; [reflexivity|]. split; [reflexivity|]. now right.
    + split; [reflexivity|]. split; [reflexivity|]. left.
      split; [reflexivity|]. split; [reflexivity|]. split; [reflexivity|].
      exists socket, s. repeat split; assumption.
  - split; [reflexivity|]. split; [reflexivity|]. right.
    split; [reflexivity|]. split; [reflexivity|].
    eexists. split; [reflexivity|]. split; [reflexivity|]. now left.
Qed.

(** X12: [replaceState] never changes the application state or the connection
    state.  It either returns true, for a payload the validator accepts, having
    sent exactly one replaceState message and raised nothing, or returns false,
    having sent nothing and raised exactly one connection, validation or
    unknown error. *)
Theorem replaceState_outcome (opts : Options) (env : Env) (newState : State) (h : Hook) :
  let r := replaceState opts env newState h in
  state (snd r) = state h
  /\ connection (snd r) = connection h
  /\ ((fst r = true
       /\ rejects opts newState = false
       /\ error (snd r) = error h /\ raised (snd r) = raised h
       /\ exists socket s,
            socketRef h = Some socket /\ sockets h !! socket = Some s
            /\ connected s = true
            /\ sockets (snd r) = alter (sock_emit (ReplaceState newState)) socket (sockets h))
      \/ (fst r = false
          /\ sockets (snd r) = sockets h
          /\ exists e,
               error (snd r) = Some e /\ raised (snd r) = raised h ++ [e]
               /\ (e_type e = type_connection \/ e_type e = type_validation
                   \/ e_type e = type_unknown))).
Proof.
  unfold replaceState.
  destruct (socket_connected h) eqn:Hc; simpl.
  - destruct (rejects opts newState) eqn:Hv.
    + split; [reflexivity|]. split; [reflexivity|]. right.
      split; [reflexivity|]. split; [reflexivity|].
      eexists. split; [reflexivity|]. split; [reflexivity|]. right. now left.
    + unfold try_emit_current, try_emit. unfold socket_connected in Hc.
      destruct (socketRef h) as [socket|] eqn:Hr; [|discriminate].
      destruct (sockets h !! socket) as [s|] eqn:Hs; [|discriminate].
      destruct (emitThrows env); simpl.
      * split; [reflexivity|]. split; [reflexivity|]. right.
        split; [reflexivity|]. split; [reflexivity|].
        eexists. split; [reflexivity|]. split; [reflexivity|]. right. now right.
      * split; [reflexivity|]. split; [reflexivity|]. left.
        split; [reflexivity|]. split; [reflexivity|]. split; [reflexivity|].
        split; [reflexivity|].
        exists socket, s. repeat split; assumption.
  - split; [reflexivity|]. split; [reflexivity|]. right.
    split; [reflexivity|]. split; [reflexivity|].
    eexists. split; [reflexivity|]. split; [reflexivity|]. now left.
Qed.

(** X13: On a connected socket whose emit does not throw, [updateState] always
    succeeds (it does not consult the validator), and [replaceState] succeeds
    exactly when the validator does not refuse the payload. *)
Theorem outbound_on_connected_socket
  (opts : Options) (env : Env) (payload : State) (h : Hook) :
  socket_connected h = true ->
  emitThrows env = false ->
  fst (updateState env payload h) = true
  /\ fst (replaceState opts env payload h) = negb (rejects opts payload).
Proof.
  intros Hc Ht. unfold updateState, replaceState. rewrite Hc. simpl.
  unfold try_emit_current, try_emit. unfold socket_connected in Hc.
  destruct (socketRef h) as [socket|]; [|discriminate].
  destruct (sockets h !! socket) as [s|]; [|discriminate].
  rewrite Ht. split; [reflexivity|]. now destruct (rejects opts payload).
Qed.

Lemma outbound_on_connected_socket_witness :
  fst (updateState sample_env (count_state (-5)) (counted_hook 10)) = true
  /\ fst (replaceState validated_options sample_env (count_state (-5)) (counted_hook 10))
     = negb (rejects validated_options (count_state (-5))).
Proof.
  apply (outbound_on_connected_socket validated_options sample_env (count_state (-5))
           (counted_hook 10)).
  - reflexivity.
  - reflexivity.
Defined.

(** X14: When [socket.emit] throws on a connected socket, [updateState] and
    [replaceState] return false, the current error has type unknown, and
    nothing is recorded as sent. *)
Theorem send_exception_is_unknown_error
  (opts : Options) (env : Env) (payload : State) (h : Hook) :
  socket_connected h = true ->
  emitThrows env = true ->
  rejects opts payload = false ->
  (fst (updateState env payload h) = false
   /\ e_type <$> error (snd (updateState env payload h)) = Some type_unknown
   /\ sockets (snd (updateState env payload h)) = sockets h)
  /\ (fst (replaceState opts env payload h) = false
      /\ e_type <$> error (snd (replaceState opts env payload h)) = Some type_unknown
      /\ sockets (snd (replaceState opts env payload h)) = sockets h).
Proof.
  intros Hc Ht Hv. unfold updateState, replaceState. rewrite Hc, Hv. simpl.
  unfold try_emit_current, try_emit. unfold socket_connected in Hc.
  destruct (socketRef h) as [socket|]; [|discriminate].
  destruct (sockets h !! socket) as [s|]; [|discriminate].
  rewrite Ht. repeat split.
Qed.

Lemma send_exception_is_unknown_error_witness :
  (fst (updateState throwing_env (count_state 1) sample_hook) = false
   /\ e_type <$> error (snd (updateState throwing_env (count_state 1) sample_hook))
      = Some type_unknown
   /\ sockets (snd (updateState throwing_env (count_state 1) sample_hook))
      = sockets sample_hook)
  /\ (fst (replaceState sample_options throwing_env (count_state 1) sample_hook) = false
      /\ e_type <$> error (snd (replaceState sample_options throwing_env (count_state 1)
                                  sample_hook))
         = Some type_unknown
      /\ sockets (snd (replaceState sample_options throwing_env (count_state 1) sample_hook))
         = sockets sample_hook).
Proof.
  apply (send_exception_is_unknown_error sample_options throwing_env (count_state 1)
           sample_hook).
  - reflexivity.
  - reflexivity.
  - reflexivity.
Defined.

(** X15: [emit] never raises an error and never changes a cell of the hook;
    it sends the event when the current socket is connected and emit does not
    throw, and is a no-op otherwise. *)
Theorem emit_frame (env : Env) (event : string) (args : list JsVal) (h : Hook) :
  cells (emit env event args h) = cells h
  /\ socketRef (emit env event args h) = socketRef h
  /\ eventListenersRef (emit env event args h) = eventListenersRef h
  /\ (emit env event args h = h
      \/ exists socket s,
           socketRef h = Some socket /\ sockets h !! socket = Some s
           /\ connected s = true /\ emitThrows env = false
           /\ sockets (emit env event args h)
              = alter (sock_emit (Custom event args)) socket (sockets h)).
Proof.
  unfold emit. destruct (socket_connected h) eqn:Hc;
    [|split; [|split; [|split]]; try reflexivity; now left].
  unfold try_emit_current, try_emit. unfold socket_connected in Hc.
  destruct (socketRef h) as [socket|] eqn:Hr; [|discriminate].
  destruct (sockets h !! socket) as [s|] eqn:Hs; [|discriminate].
  destruct (emitThrows env) eqn:Ht;
    (split; [|split; [|split]]; try reflexivity; try exact Hr); [now left|].
  right. exists socket, s. repeat split; assumption.
Qed.

Lemma remove_first_snoc (event : string) (l : Listener) (ls : list (string * Listener)) :
  (event, l) ∉ ls -> remove_first event l (ls ++ [(event, l)]) = ls.
Proof.
  induction ls as [|[e l'] ls IH]; intros Hnot; simpl.
  - rewrite decide_True by (split; reflexivity). reflexivity.
  - rewrite decide_False.
    + f_equal. apply IH. intros Hin. apply Hnot. now right.
    + intros [-> ->]. apply Hnot. now left.
Qed.

(** X16: Subscribing a listener that is not yet registered for the event, and
    then calling the returned unsubscribe, restores the hook exactly (socket
    listeners and listener registry included). *)
Theorem on_then_unsubscribe
  (env : Env) (event : string) (listener : Listener) (h : Hook)
  (socket : SocketRef) (s : Socket) :
  socketRef h = Some socket ->
  sockets h !! socket = Some s ->
  (event, listener) ∉ listeners s ->
  eventListenersRef h !! (event +:+ "_" +:+ pretty (now env)) = None ->
  unsubscribe (fst (on env event listener h)) (snd (on env event listener h)) = h.
Proof.
  intros Hr Hs Hfresh Hkey. unfold on. rewrite Hr. simpl.
  unfold with_socket. simpl.
  rewrite delete_insert_eq, delete_id by exact Hkey.
  assert (Hl : alter (sock_off event listener) socket
                 (alter (sock_on event listener) socket (sockets h)) = sockets h).
  { apply list_eq. intros i. destruct (decide (i = socket)) as [->|Hne].
    - rewrite !list_lookup_alter_eq, Hs. simpl. f_equal.
      unfold sock_off, sock_on. simpl. rewrite remove_first_snoc by exact Hfresh.
      now destruct s.
    - now rewrite !list_lookup_alter_ne by congruence. }
  rewrite Hl. now destruct h.
Qed.

Lemma on_then_unsubscribe_witness :
  unsubscribe (fst (on sample_env "userJoined" 7%nat sample_hook))
    (snd (on sample_env "userJoined" 7%nat sample_hook)) = sample_hook.
Proof.
  apply (on_then_unsubscribe sample_env "userJoined" 7%nat sample_hook 0%nat sample_socket).
  - reflexivity.
  - reflexivity.
  - apply not_elem_of_nil.
  - reflexivity.
Defined.

Lemma remove_first_app (event : string) (l : Listener) (ls rest : list (string * Listener)) :
  (event, l) ∉ ls -> remove_first event l (ls ++ rest) = ls ++ remove_first event l rest.
Proof.
  induction ls as [|[e l'] ls IH]; intros Hnot; simpl; [reflexivity|].
  rewrite decide_False.
  - f_equal. apply IH. intros Hin. apply Hnot. now right.
  - intros [-> ->]. apply Hnot. now left.
Qed.

(** X17: Two subscriptions to the same event are independent: unsubscribing
    the first leaves the second listener registered on the socket. *)
Theorem subscriptions_independent
  (env1 env2 : Env) (event : string) (l1 l2 : Listener) (h : Hook)
  (socket : SocketRef) (s : Socket) :
  socketRef h = Some socket ->
  sockets h !! socket = Some s ->
  l1 <> l2 ->
  (event, l1) ∉ listeners s ->
  let first := on env1 event l1 h in
  let second := on env2 event l2 (snd first) in
  exists s',
    sockets (unsubscribe (fst first) (snd second)) !! socket = Some s'
    /\ listeners s' = listeners s ++ [(event, l2)]
    /\ sent s' = sent s /\ connected s' = connected s.
Proof.
  intros Hr Hs Hne Hfresh. unfold on. rewrite Hr. cbn -[alter].
  rewrite Hr. cbn -[alter].
  rewrite !list_lookup_alter_eq, Hs. simpl.
  eexists. split; [reflexivity|]. simpl. split; [|split; reflexivity].
  rewrite <- app_assoc. rewrite remove_first_app by exact Hfresh.
  simpl. rewrite decide_True by (split; reflexivity).
  reflexivity.
Qed.

Lemma subscriptions_independent_witness :
  exists s',
    sockets (unsubscribe (fst (on sample_env "userJoined" 7%nat sample_hook))
               (snd (on sample_env "userJoined" 8%nat
                       (snd (on sample_env "userJoined" 7%nat sample_hook))))) !! 0%nat
    = Some s'
    /\ listeners s' = listeners sample_socket ++ [("userJoined", 8%nat)]
    /\ sent s' = sent sample_socket /\ connected s' = connected sample_socket.
Proof.
  apply (subscriptions_independent sample_env sample_env "userJoined" 7%nat 8%nat
           sample_hook 0%nat sample_socket).
  - reflexivity.
  - reflexivity.
  - discriminate.
  - apply not_elem_of_nil.
Defined.




(** X23: A render that changes no dependency of the effect creates no socket
    and leaves the inbound handlers as they were, so a validator passed in that
    render is used by [replaceState] at once but not by inbound updates. *)
Theorem validator_change_without_dependency
  (env env' : Env) (o : Options) (w : Component) (socket : SocketRef) (s : State) :
  deps o = deps (render_opts w) ->
  let w' := step env (Rerender o) w in
  sockets (hook w') = sockets (hook w)
  /\ hook (step env' (SockStateUpdate socket s) w')
     = hook (step env' (SockStateUpdate socket s) w)
  /\ hook (step env' (SockStatePartialUpdate socket s) w')
     = hook (step env' (SockStatePartialUpdate socket s) w)
  /\ hook (step env' (CallReplaceState s) w') = snd (replaceState o env' s (hook w)).
Proof.
  intros Hd. unfold step at 1 4 6. unfold rerender.
  rewrite decide_True by exact Hd. repeat split.
Qed.

Lemma validator_change_without_dependency_witness :
  let w := connected_component sample_options in
  let w' := step sample_env (Rerender validated_options) w in
  let s := count_state (-5) in
  sockets (hook w') = sockets (hook w)
  /\ hook (step sample_env (SockStateUpdate 0%nat s) w')
     = hook (step sample_env (SockStateUpdate 0%nat s) w)
  /\ hook (step sample_env (SockStatePartialUpdate 0%nat s) w')
     = hook (step sample_env (SockStatePartialUpdate 0%nat s) w)
  /\ hook (step sample_env (CallReplaceState s) w')
     = snd (replaceState validated_options sample_env s (hook w)).
Proof.
  apply (validator_change_without_dependency sample_env sample_env validated_options
           (connected_component sample_options) 0%nat (count_state (-5))).
  reflexivity.
Defined.



(** X18: [reconnect] calls [socket.connect()] whenever a socket exists, whether or
    not it is connected, and changes no cell; [disconnect] does nothing while
    the socket is not connected. *)
Theorem manual_controls (env : Env) (h : Hook) (socket : SocketRef) (s : Socket) :
  socketRef h = Some socket ->
  sockets h !! socket = Some s ->
  (sockets (reconnect h) !! socket = Some (sock_connect s)
   /\ cells (reconnect h) = cells h)
  /\ (connected s = false -> disconnect env h = h).
Proof.
  intros Hr Hs. split.
  - unfold reconnect, with_socket. rewrite Hr. cbn -[alter].
    now rewrite list_lookup_alter_eq, Hs.
  - intros Hc. unfold disconnect, socket_connected. now rewrite Hr, Hs, Hc.
Qed.

Lemma manual_controls_witness :
  (sockets (reconnect sample_hook) !! 0%nat = Some (sock_connect sample_socket)
   /\ cells (reconnect sample_hook) = cells sample_hook)
  /\ (connected sample_socket = false -> disconnect sample_env sample_hook = sample_hook).
Proof.
  apply (manual_controls sample_env sample_hook 0%nat sample_socket).
  - reflexivity.
  - reflexivity.
Defined.

Lemma on_disconnect_sockets env reason details h :
  sockets (on_disconnect env reason details h) = sockets h
  /\ socketRef (on_disconnect env reason details h) = socketRef h.
Proof. unfold on_disconnect. destruct (decide _); split; reflexivity. Qed.

(** X19: After [disconnect] the socket is not connected, and a second
    [disconnect] changes nothing. *)
Theorem disconnect_idempotent (env env' : Env) (h : Hook) :
  socket_connected (disconnect env h) = false
  /\ disconnect env' (disconnect env h) = disconnect env h.
Proof.
  assert (Hc : socket_connected (disconnect env h) = false).
  { unfold disconnect. destruct (socket_connected h) eqn:Hc; [|exact Hc].
    unfold socket_connected in Hc.
    destruct (socketRef h) as [socket|] eqn:Hr; [|discriminate].
    destruct (sockets h !! socket) as [s|] eqn:Hs; [|discriminate].
    unfold socket_disconnect. rewrite Hs.
    assert (Hw : socket_connected (with_socket socket (sock_set_connected false None) h) = false).
    { unfold socket_connected, with_socket. cbn -[alter]. rewrite Hr.
      now rewrite list_lookup_alter_eq, Hs. }
    destruct (connected s && hooked s); [|exact Hw].
    unfold socket_connected in *.
    destruct (on_disconnect_sockets env "io client disconnect" None
                (with_socket socket (sock_set_connected false None) h)) as [-> ->].
    exact Hw. }
  split; [exact Hc|]. unfold disconnect at 1. now rewrite Hc.
Qed.

(** X22: In every state the hook reaches, at most one socket carries the
    effect's handlers: the one [socketRef] points at, which is also the one the
    pending cleanup will close. *)
Theorem one_socket_listens (o : Options) (evs : list (Env * Event))
  (a : SocketRef) (s : Socket) :
  let w := run evs (mount o) in
  sockets (hook w) !! a = Some s ->
  hooked s = true ->
  pending_cleanup w = Some a /\ socketRef (hook w) = Some a.
Proof.
  intros w Hs Hh. subst w.
  destruct (run_torn_down_ready evs _ (mount_torn_down_ready o)) as [Hw _].
  apply Hw. unfold hooked_flags. now rewrite list_lookup_fmap, Hs, <- Hh.
Qed.

Lemma one_socket_listens_witness :
  let w := run (sample_trace ++ [(sample_env, Rerender (with_room "lobby" sample_options))])
             (mount sample_options) in
  pending_cleanup w = Some 1%nat /\ socketRef (hook w) = Some 1%nat.
Proof.
  apply (one_socket_listens sample_options
           (sample_trace ++ [(sample_env, Rerender (with_room "lobby" sample_options))])
           1%nat
           {| sock_id := None; connected := false; sent := []; hooked := true;
              listeners := []; connectCalls := 0 |}).
  - reflexivity.
  - reflexivity.
Defined.

(** X25: In every state the hook reaches, the error slot is either empty or
    holds the error that was raised last. *)
Theorem error_slot_holds_latest (o : Options) (evs : list (Env * Event)) :
  let h := hook (run evs (mount o)) in
  error h = None \/ error h = last (raised h).
Proof.
  simpl. apply (run_preserves (fun w => error_is_latest (hook w)) (fun _ => true)).
  - intros env ev w _. apply step_error_is_latest.
  - now induction evs as [|[] ? ?].
  - unfold mount, effect. destruct (autoConnect o); now left.
Qed.

Lemma step_state_passes (o : Options) env ev w :
  negb (is_rerender ev) = true -> state_passes o w -> state_passes o (step env ev w).
Proof.
  intros Hev [He Hs]. destruct w as [ro eo pc h]. simpl in He, Hs. subst eo.
  unfold state_passes.
  destruct ev; try discriminate Hev; unfold_hook_ops; simpl;
    repeat (case_match; simpl); simplify_eq/=; auto.
Qed.

(** X3: As long as the component is not rendered again, every application
    state the hook ever holds has passed the configured validator. *)
Theorem state_always_validated (o : Options) (evs : list (Env * Event)) (s : State) :
  forallb (fun x => negb (is_rerender (snd x))) evs = true ->
  state (hook (run evs (mount o))) = Some s ->
  rejects o s = false.
Proof.
  intros Hall Hs.
  assert (Hw : state_passes o (run evs (mount o))).
  { apply (run_preserves (state_passes o) (fun ev => negb (is_rerender ev))).
    - intros env ev w. apply step_state_passes.
    - exact Hall.
    - unfold state_passes, mount, effect. destruct (autoConnect o); now split. }
  destruct Hw as [_ Hw]. now rewrite Hs in Hw.
Qed.

Lemma state_always_validated_witness :
  rejects validated_options (count_state 10) = false.
Proof.
  apply (state_always_validated validated_options sample_trace (count_state 10)).
  - reflexivity.
  - vm_compute. reflexivity.
Defined.

Lemma step_nextRetryIn_nonneg env ev w :
  0 <= nextRetryIn (reconnectionInfo (hook w)) ->
  0 <= nextRetryIn (reconnectionInfo (hook (step env ev w))).
Proof.
  intros H. destruct w as [ro eo pc h]. simpl in H.
  destruct ev; unfold_hook_ops; simpl;
    repeat (case_match; simpl); simplify_eq/=; auto; lia.
Qed.

(** X10: In every state the hook reaches, nextRetryIn is not negative. *)
Theorem nextRetryIn_never_negative (o : Options) (evs : list (Env * Event)) :
  0 <= nextRetryIn (reconnectionInfo (hook (run evs (mount o)))).
Proof.
  apply (run_preserves (fun w => 0 <= nextRetryIn (reconnectionInfo (hook w)))
           (fun _ => true)).
  - intros env ev w _. apply step_nextRetryIn_nonneg.
  - now induction evs as [|[] ? ?].
  - unfold mount, effect. destruct (autoConnect o); simpl; lia.
Qed.

Lemma string_app_inv_head (a b c : string) : a +:+ b = a +:+ c -> b = c.
Proof.
  induction a as [|x a IH]; intros H; [exact H|].
  rewrite !string_app_cons in H. injection H as H. now apply IH.
Qed.

(** X26: Two errors created in the same millisecond carry the same timestamp,
    and their ids differ whenever their random suffixes differ. *)
Theorem error_ids_differ_by_suffix (env1 env2 : Env) (p1 p2 : SocketErrorPayload) :
  now env1 = now env2 ->
  rand env1 <> rand env2 ->
  e_id (createSocketError env1 p1) <> e_id (createSocketError env2 p2)
  /\ e_timestamp (createSocketError env1 p1) = e_timestamp (createSocketError env2 p2).
Proof.
  intros Hn Hr. split; [|exact Hn].
  unfold createSocketError, generateErrorId. simpl. rewrite Hn. intros H.
  apply Hr.
  apply string_app_inv_head in H. apply string_app_inv_head in H.
  now apply string_app_inv_head in H.
Qed.

Lemma error_ids_differ_by_suffix_witness :
  let env2 := {| now := 1700000000000; rand := "q7w2"; emitThrows := false |} in
  let p := {| p_type := type_server; p_message := "Internal server error";
              p_code := Some (VNum 500); p_details := None |} in
  e_id (createSocketError sample_env p) <> e_id (createSocketError env2 p)
  /\ e_timestamp (createSocketError sample_env p) = e_timestamp (createSocketError env2 p).
Proof.
  apply (error_ids_differ_by_suffix sample_env
           {| now := 1700000000000; rand := "q7w2"; emitThrows := false |}
           {| p_type := type_server; p_message := "Internal server error";
              p_code := Some (VNum 500); p_details := None |}
           {| p_type := type_server; p_message := "Internal server error";
              p_code := Some (VNum 500); p_details := None |}).
  - reflexivity.
  - discriminate.
Defined.
